(** * pc-ble-driver-js: the Secure DFU transport and the update-package reader

  A shallow embedding of [api/dfu/dfuTransport.js], of [api/dfu.js] and of
  the conversions of [src/common.h], with the properties of the
  specification stated over it.

  Conventions of the embedding.
  - A JavaScript number that the code only uses as an integer (offsets,
    sizes, checksums) is a [Z].  The one place where the code can produce
    [NaN] is the remainder by zero; [Js.rem] returns [None] there.
  - A JavaScript value that may be [undefined] is an [option]: [None] is
    [undefined].
  - A byte array is a [list byte].
  - A promise is a computation of the monad [M] of module [Promise]: it
    runs against the external collaborators (adapter, control point
    service, object writer), logs every call it makes to them, and ends
    resolved with a value or rejected with an error. *)

From Stdlib Require Import ZArith Lia Bool.
From Stdlib Require Import Strings.Byte.
From Stdlib Require Import QArith.QArith_base QArith.Qround.
From stdpp Require Import base list strings pretty gmap.

Local Open Scope Z_scope.

(** ** JavaScript primitives used by the code *)

Module Js.

(** [a % b] on integers: the sign follows the dividend, and a zero divisor
    gives [NaN] (here [None]). *)
Definition rem (a b : Z) : option Z :=
  if b =? 0 then None else Some (Z.rem a b).

(** The index clamping of [Array.prototype.slice]: a negative index counts
    from the end, and the result is kept within [0 .. len]. *)
Definition relativeIndex (len i : Z) : Z :=
  if i <? 0 then Z.max (len + i) 0 else Z.min i len.

(** [l.slice(start, end)]. *)
Definition slice {A} (l : list A) (start end_ : Z) : list A :=
  let len := Z.of_nat (length l) in
  let k := relativeIndex len start in
  let final := relativeIndex len end_ in
  take (Z.to_nat (final - k)) (drop (Z.to_nat k) l).

(** [l.slice(start)]: the end is the length of the array. *)
Definition sliceFrom {A} (l : list A) (start : Z) : list A :=
  let len := Z.of_nat (length l) in
  let k := relativeIndex len start in
  take (Z.to_nat (len - k)) (drop (Z.to_nat k) l).

(** [l.length]. *)
Definition length {A} (l : list A) : Z := Z.of_nat (List.length l).

End Js.

(** ** CRC-32 *)

Module Crc.

(** Modelled from the spec: [crc.crc32] of the npm package [crc], which the
    transport requires and which is not part of the repository.  The data
    model of the specification gives it as the CRC-32 of IEEE 802.3:
    reflected polynomial [0xEDB88320], initial value [0xFFFFFFFF], final
    exclusive-or [0xFFFFFFFF]. *)
Definition polynomial : Z := 0xEDB88320.

Definition shift1 (c : Z) : Z :=
  if Z.testbit c 0 then Z.lxor (Z.shiftr c 1) polynomial else Z.shiftr c 1.

Definition step (c : Z) (b : byte) : Z :=
  let c := Z.lxor c (Z.of_N (Byte.to_N b)) in
  shift1 (shift1 (shift1 (shift1 (shift1 (shift1 (shift1 (shift1 c))))))).

Definition crc32_update (previous : Z) (data : list byte) : Z :=
  Z.lxor (fold_left step data (Z.lxor previous 0xFFFFFFFF)) 0xFFFFFFFF.

Definition crc32 (data : list byte) : Z := crc32_update 0 data.

End Crc.

(** ** Constants of the DFU protocol *)

Module DfuConstants.

(** Modelled from the spec: [ObjectType] of [dfuConstants.js], which is not
    among the sources.  The data model gives two variants, [Command] (value
    [0x01], an init packet) and [Data] (value [0x02], firmware). *)
Inductive ObjectType := COMMAND | DATA.

Definition ObjectType_value (t : ObjectType) : Z :=
  match t with COMMAND => 0x01 | DATA => 0x02 end.

(** Modelled from the spec: [ErrorCode] of [dfuConstants.js].  The error
    handling design lists the kinds; the result codes of the target are the
    non-success codes of the control point. *)
Inductive ErrorCode :=
| NOTIFICATION_START_ERROR
| NOTIFICATION_STOP_ERROR
| NOTIFICATION_TIMEOUT
| INVALID_OFFSET
| INVALID_CRC
| INIT_PACKET_TOO_LARGE
| ABORTED
| PACKAGE_INVALID
| INVALID_CODE
| OPCODE_NOT_SUPPORTED
| INVALID_PARAMETER
| INSUFFICIENT_RESOURCES
| INVALID_OBJECT
| UNSUPPORTED_TYPE
| OPERATION_NOT_PERMITTED
| OPERATION_FAILED.

#[global] Instance ErrorCode_eq_dec : EqDecision ErrorCode.
Proof. solve_decision. Defined.

#[global] Instance ObjectType_eq_dec : EqDecision ObjectType.
Proof. solve_decision. Defined.

(** Modelled from the spec: [createError] of [dfuConstants.js], with the
    errors of JavaScript that the code meets.  [createError(code, message)]
    builds an error that carries a [code]; errors built
    with [new Error(message)], thrown by the engine ([TypeError]), thrown by
    [JSON.parse] ([SyntaxError]) or handed over by an external library
    carry none. *)
Inductive JsError :=
| DfuError (code : ErrorCode) (message : string)
| PlainError (message : string)
| TypeError (message : string)
| SyntaxError (message : string).

Definition createError (code : ErrorCode) (message : string) : JsError :=
  DfuError code message.

(** [error.code]; [undefined] for an error without one. *)
Definition code (e : JsError) : option ErrorCode :=
  match e with
  | DfuError c _ => Some c
  | _ => None
  end.

(** [error.message]. *)
Definition message (e : JsError) : string :=
  match e with
  | DfuError _ m | PlainError m | TypeError m | SyntaxError m => m
  end.

End DfuConstants.

(** ** Splitting an array into chunks *)

Module ArrayUtil.

(** Modelled from the spec: [splitArray] of [util/arrayUtil.js], which is not
    among the sources.  The specification partitions a payload of length [L]
    into chunks of the given size, the last one possibly shorter; it gives no
    meaning to a chunk size below one, for which this model returns no
    chunk. *)
Fixpoint chunks {A} (fuel : nat) (chunkSize : nat) (data : list A) : list (list A) :=
  match fuel with
  | O => []
  | S fuel =>
      match data with
      | [] => []
      | _ => take chunkSize data :: chunks fuel chunkSize (drop chunkSize data)
      end
  end.

Definition splitArray {A} (data : list A) (chunkSize : Z) : list (list A) :=
  if chunkSize <? 1 then [] else chunks (length data) (Z.to_nat chunkSize) data.

End ArrayUtil.

(** ** Values exchanged with the target *)

(** The response of [SELECT]: [{ maximumSize, offset, crc32 }]. *)
Module SelectResponse.
Record t := make { maximumSize : Z; offset : Z; crc32 : Z }.
End SelectResponse.

(** Transfer progress: [{ offset, crc32 }]. *)
Module Progress.
Record t := make { offset : Z; crc32 : Z }.
End Progress.

(** ** Promises over the external collaborators *)

Module Promise.
Import DfuConstants.

(** A call made to a collaborator, with what it answered, or an event the
    transport emitted.  For a call that resolves without a value the answer
    is the error, if any.  The packets that the object writer sends and the
    [packetWritten] events it raises while a [WriteObject] call runs belong
    to the writer and are not logged one by one. *)
Inductive Event :=
| StartCharacteristicsNotifications (characteristicId : string) (ack : bool)
    (error : option JsError)
| StopCharacteristicsNotifications (characteristicId : string)
    (error : option JsError)
| SelectObject (type : ObjectType) (answer : JsError + SelectResponse.t)
| CreateObject (type : ObjectType) (size : Z) (error : option JsError)
| SetPRN (prn : Z) (error : option JsError)
| CalculateChecksum (answer : JsError + Progress.t)
| Execute (error : option JsError)
| WriteObject (data : list byte) (type : ObjectType) (offset crc32 : option Z)
    (answer : JsError + Progress.t)
| WriterSetPrn (prn : Z)
| WriterSetMtuSize (mtuSize : Z)
| WriterAbort
| ProgressUpdate (stage : string) (offset : Z).

(** The collaborators: the adapter, the [ControlPointService] and the
    [DfuObjectWriter].  None of them is among the sources, so their answers
    are left open: each answer may depend on everything that happened
    before (the log) and on the arguments of the call. *)
Record World := {
  adapter_startCharacteristicsNotifications :
    list Event -> string -> bool -> option JsError;
  adapter_stopCharacteristicsNotifications :
    list Event -> string -> option JsError;
  controlPointService_selectObject :
    list Event -> ObjectType -> JsError + SelectResponse.t;
  controlPointService_createObject :
    list Event -> ObjectType -> Z -> option JsError;
  controlPointService_setPRN : list Event -> Z -> option JsError;
  controlPointService_calculateChecksum : list Event -> JsError + Progress.t;
  controlPointService_execute : list Event -> option JsError;
  objectWriter_writeObject :
    list Event -> list byte -> ObjectType -> option Z -> option Z ->
    JsError + Progress.t
}.

(** The fields of a [DfuTransport] object, and the log of what it did. *)
Record State := {
  _controlPointCharacteristicId : string;
  _packetCharacteristicId : string;
  _isOpen : bool;
  log : list Event
}.

(** The state after more events; no field of the transport changes. *)
Definition append (events : list Event) (s : State) : State :=
  {| _controlPointCharacteristicId := _controlPointCharacteristicId s;
     _packetCharacteristicId := _packetCharacteristicId s;
     _isOpen := _isOpen s;
     log := log s ++ events |}.

Definition record (ev : Event) (s : State) : State := append [ev] s.

(** How a promise ends.  [Unfinished] is the end of a computation whose
    recursion was cut short by its fuel; the transport never ends so
    ([createAndWriteObject_finishes]). *)
Inductive Outcome (A : Type) :=
| Resolved (a : A)
| Rejected (e : JsError)
| Unfinished.
Arguments Resolved {A} a.
Arguments Rejected {A} e.
Arguments Unfinished {A}.

Definition M (A : Type) : Type := World -> State -> State * Outcome A.

(** [Promise.resolve(a)]. *)
Definition resolve {A} (a : A) : M A := fun _ s => (s, Resolved a).

(** [Promise.reject(e)], or a [throw] inside a handler. *)
Definition reject {A} (e : JsError) : M A := fun _ s => (s, Rejected e).

(** [p.then(f)]. *)
Definition bind {A B} (p : M A) (f : A -> M B) : M B :=
  fun w s =>
    match p w s with
    | (s', Resolved a) => f a w s'
    | (s', Rejected e) => (s', Rejected e)
    | (s', Unfinished) => (s', Unfinished)
    end.

(** [this.emit('progressUpdate', { stage, offset })]. *)
Definition emit (stage : string) (offset : Z) : M unit :=
  fun _ s => (record (ProgressUpdate stage offset) s, Resolved tt).

(** A call that resolves with a value. *)
Definition ask {A} (answer : JsError + A) (ev : Event) : M A :=
  fun _ s =>
    (record ev s,
     match answer with inl e => Rejected e | inr a => Resolved a end).

(** A call that resolves without a value. *)
Definition tell (error : option JsError) (ev : Event) : M unit :=
  fun _ s =>
    (record ev s,
     match error with Some e => Rejected e | None => Resolved tt end).

Definition selectObject (type : ObjectType) : M SelectResponse.t :=
  fun w s =>
    let answer := controlPointService_selectObject w (log s) type in
    ask answer (SelectObject type answer) w s.

Definition createObject (type : ObjectType) (size : Z) : M unit :=
  fun w s =>
    let error := controlPointService_createObject w (log s) type size in
    tell error (CreateObject type size error) w s.

Definition setPRN (prn : Z) : M unit :=
  fun w s =>
    let error := controlPointService_setPRN w (log s) prn in
    tell error (SetPRN prn error) w s.

Definition calculateChecksum : M Progress.t :=
  fun w s =>
    let answer := controlPointService_calculateChecksum w (log s) in
    ask answer (CalculateChecksum answer) w s.

Definition execute : M unit :=
  fun w s =>
    let error := controlPointService_execute w (log s) in
    tell error (Execute error) w s.

Definition writeObject (data : list byte) (type : ObjectType)
    (offset crc32 : option Z) : M Progress.t :=
  fun w s =>
    let answer := objectWriter_writeObject w (log s) data type offset crc32 in
    ask answer (WriteObject data type offset crc32 answer) w s.

End Promise.

Declare Scope promise_scope.
Delimit Scope promise_scope with promise.
Notation "x <- p ;; q" := (Promise.bind p (fun x => q))
  (at level 100, p at next level, right associativity) : promise_scope.
Notation "p ;;; q" := (Promise.bind p (fun _ => q))
  (at level 100, right associativity) : promise_scope.

(** ** [api/dfu/dfuTransport.js] *)

Module DfuTransport.
Import DfuConstants Promise.
Local Open Scope promise_scope.

Definition MAX_RETRIES : Z := 3.

(** [new DfuTransport(adapter, controlPointCharacteristicId,
    packetCharacteristicId)]. *)
Definition constructor (controlPointCharacteristicId packetCharacteristicId : string)
    : State :=
  {| _controlPointCharacteristicId := controlPointCharacteristicId;
     _packetCharacteristicId := packetCharacteristicId;
     _isOpen := false;
     log := [] |}.

Definition _getObjectTypeString (type : ObjectType) : string :=
  match type with
  | COMMAND => "init packet"
  | DATA => "firmware"
  end.

Definition _emitResumeEvent (offset : Z) (type : ObjectType) : M unit :=
  emit ("Resuming " +:+ _getObjectTypeString type +:+ " transfer") offset.

Definition _emitTransferEvent (offset : Z) (type : ObjectType) : M unit :=
  emit ("Transferring " +:+ _getObjectTypeString type) offset.

Definition _emitInitializeEvent (type : ObjectType) : M unit :=
  emit ("Initializing " +:+ _getObjectTypeString type) 0.

Definition _open : M unit :=
  fun w s =>
    if _isOpen s then resolve tt w s
    else
      let ack := false in
      let error :=
        adapter_startCharacteristicsNotifications w (log s)
          (_controlPointCharacteristicId s) ack in
      (record (StartCharacteristicsNotifications
                 (_controlPointCharacteristicId s) ack error) s,
       match error with
       | Some error =>
           Rejected (createError NOTIFICATION_START_ERROR (message error))
       | None => Resolved tt
       end).

Definition close : M unit :=
  fun w s =>
    if negb (_isOpen s) then resolve tt w s
    else
      let error :=
        adapter_stopCharacteristicsNotifications w (log s)
          (_controlPointCharacteristicId s) in
      (record (StopCharacteristicsNotifications
                 (_controlPointCharacteristicId s) error) s,
       match error with
       | Some error =>
           Rejected (createError NOTIFICATION_STOP_ERROR (message error))
       | None => Resolved tt
       end).

Definition abort : M unit :=
  fun _ s => (record WriterAbort s, Resolved tt).

Definition setPrn (prn : Z) : M unit :=
  _open ;;;
  setPRN prn ;;;
  (fun _ s => (record (WriterSetPrn prn) s, Resolved tt)).

Definition setMtuSize (mtuSize : Z) : M unit :=
  fun _ s => (record (WriterSetMtuSize mtuSize) s, Resolved tt).

Definition _validateProgress (progressInfo : Progress.t) : M unit :=
  response <- calculateChecksum ;;
  if negb (Progress.offset progressInfo =? Progress.offset response) then
    reject (createError INVALID_OFFSET
      ("Error when validating offset. Got " +:+ pretty (Progress.offset response)
       +:+ ", but expected " +:+ pretty (Progress.offset progressInfo) +:+ "."))
  else if negb (Progress.crc32 progressInfo =? Progress.crc32 response) then
    reject (createError INVALID_CRC
      ("Error when validating CRC. Got " +:+ pretty (Progress.crc32 response)
       +:+ ", but expected " +:+ pretty (Progress.crc32 progressInfo) +:+ "."))
  else resolve tt.

Definition _validateInitPacketSize (initPacket : list byte) (maxSize : Z) : M unit :=
  if Js.length initPacket >? maxSize then
    reject (createError INIT_PACKET_TOO_LARGE
      ("Init packet size (" +:+ pretty (Js.length initPacket)
       +:+ ") is larger than max size (" +:+ pretty maxSize +:+ ")"))
  else resolve tt.

Definition _canResumePartiallyWrittenObject (data : list byte) (offset crc32 : Z)
    : bool :=
  if (offset =? 0) || (offset >? Js.length data)
     || negb (crc32 =? Crc.crc32 (Js.slice data 0 offset))
  then false
  else true.

(** When [maximumSize] is zero the remainder is [NaN]; it is then not equal
    to zero, and [offset + maximumSize - remainder] is [NaN] too, which
    [slice] reads as the end index 0. *)
Definition _getRemainingPartialObject (data : list byte) (maximumSize offset : Z)
    : list byte :=
  let remainder := Js.rem offset maximumSize in
  if (offset =? 0) || bool_decide (remainder = Some 0)
     || (offset =? Js.length data)
  then []
  else
    match remainder with
    | Some remainder => Js.slice data offset (offset + maximumSize - remainder)
    | None => Js.slice data offset 0
    end.

Definition _shouldRetry (attempts : Z) (error : JsError) : bool :=
  if (attempts <? MAX_RETRIES)
     && negb (bool_decide (code error = Some ABORTED))
     && negb (bool_decide (code error = Some NOTIFICATION_TIMEOUT))
  then true
  else false.

Definition _writeObject (data : list byte) (type : ObjectType)
    (offset crc32 : option Z) : M Progress.t :=
  progress <- writeObject data type offset crc32 ;;
  _validateProgress progress ;;;
  execute ;;;
  resolve progress.

(** [tryWrite] inside [_createAndWriteObject]; [attempts] is the counter
    that the closure shares.  The recursion is bounded by [_shouldRetry];
    [fuel] makes that structural. *)
Fixpoint tryWrite (fuel : nat) (attempts : Z) (data : list byte)
    (type : ObjectType) (offset crc32 : option Z) : M Progress.t :=
  fun w s =>
    match (createObject type (Js.length data) ;;;
           _writeObject data type offset crc32) w s with
    | (s', Resolved progress) => (s', Resolved progress)
    | (s', Rejected error) =>
        let attempts := attempts + 1 in
        if _shouldRetry attempts error then
          match fuel with
          | S fuel => tryWrite fuel attempts data type offset crc32 w s'
          | O => (s', Unfinished)
          end
        else (s', Rejected error)
    | (s', Unfinished) => (s', Unfinished)
    end.

Definition _createAndWriteObject (data : list byte) (type : ObjectType)
    (offset crc32 : option Z) : M Progress.t :=
  let attempts := 0 in
  tryWrite (Z.to_nat MAX_RETRIES) attempts data type offset crc32.

Definition _createAndWriteObjects (objects : list (list byte)) (type : ObjectType)
    (offset crc32 : Z) : M Progress.t :=
  fold_left
    (fun prevPromise object =>
       progress <- prevPromise ;;
       _createAndWriteObject object type
         (Some (Progress.offset progress)) (Some (Progress.crc32 progress)))
    objects
    (resolve (Progress.make offset crc32)).

(** The result of [_getFirmwareState]. *)
Module FirmwareState.
Record t := make {
  offset : Z;
  crc32 : Z;
  objects : list (list byte);
  partialObject : list byte
}.
End FirmwareState.

Definition _getFirmwareState (firmware : list byte)
    (selectResponse : SelectResponse.t) : FirmwareState.t :=
  let maximumSize := SelectResponse.maximumSize selectResponse in
  let offset := SelectResponse.offset selectResponse in
  let crc32 := SelectResponse.crc32 selectResponse in
  let startOffset := offset in
  let startCrc32 := crc32 in
  let partialObject := _getRemainingPartialObject firmware maximumSize offset in
  let '(startOffset, startCrc32, partialObject) :=
    if (Js.length partialObject >? 0)
       && negb (_canResumePartiallyWrittenObject firmware offset crc32)
    then
      let startOffset := offset - maximumSize + Js.length partialObject in
      (startOffset, Crc.crc32 (Js.slice firmware 0 startOffset), [])
    else (startOffset, startCrc32, partialObject) in
  let dataToSend := Js.sliceFrom firmware (startOffset + Js.length partialObject) in
  {| FirmwareState.offset := startOffset;
     FirmwareState.crc32 := startCrc32;
     FirmwareState.objects :=
       ArrayUtil.splitArray dataToSend (SelectResponse.maximumSize selectResponse);
     FirmwareState.partialObject := partialObject |}.

Definition sendInitPacket (initPacket : list byte) : M Progress.t :=
  let objectType := COMMAND in
  _emitInitializeEvent objectType ;;;
  _open ;;;
  response <- selectObject objectType ;;
  let maximumSize := SelectResponse.maximumSize response in
  let offset := SelectResponse.offset response in
  let crc32 := SelectResponse.crc32 response in
  _validateInitPacketSize initPacket maximumSize ;;;
  if _canResumePartiallyWrittenObject initPacket offset crc32 then
    _emitResumeEvent offset objectType ;;;
    _writeObject (Js.sliceFrom initPacket offset) objectType
      (Some offset) (Some crc32)
  else _createAndWriteObject initPacket objectType None None.

Definition sendFirmware (firmware : list byte) : M Progress.t :=
  let objectType := DATA in
  _emitInitializeEvent objectType ;;;
  _open ;;;
  response <- selectObject objectType ;;
  let state := _getFirmwareState firmware response in
  let offset := FirmwareState.offset state in
  let crc32 := FirmwareState.crc32 state in
  let objects := FirmwareState.objects state in
  let partialObject := FirmwareState.partialObject state in
  if Js.length partialObject >? 0 then
    _emitResumeEvent offset objectType ;;;
    progress <- _writeObject partialObject objectType (Some offset) (Some crc32) ;;
    _createAndWriteObjects objects objectType
      (Progress.offset progress) (Progress.crc32 progress)
  else _createAndWriteObjects objects objectType offset crc32.

End DfuTransport.

(** ** JSON values *)

Module Json.
Import DfuConstants.

(** What [JSON.parse] returns.  An object keeps its properties in the order
    of its keys; a parsed object has no key twice.  Numbers are kept to the
    integers. *)
#[local] Set Warnings "-register-all".
Inductive t :=
| Null
| Bool (b : bool)
| Number (z : Z)
| String (s : string)
| Array (elements : list t)
| Object (properties : list (string * t)).

(** The first binding of a key in a list of properties. *)
Fixpoint lookup (key : string) (properties : list (string * t)) : option t :=
  match properties with
  | [] => None
  | (k, v) :: properties =>
      if String.eqb k key then Some v else lookup key properties
  end.

(** [value[key]] for a value that may be [undefined], and a key that is not
    a property of the built-in prototypes: reading a property of [null] or
    [undefined] throws a [TypeError]; an object gives the value bound to
    the key, or [undefined]; any other value gives [undefined]. *)
Definition get (value : option t) (key : string) : JsError + option t :=
  match value with
  | None =>
      inl (TypeError ("Cannot read property '" +:+ key +:+ "' of undefined"))
  | Some Null =>
      inl (TypeError ("Cannot read property '" +:+ key +:+ "' of null"))
  | Some (Object properties) => inr (lookup key properties)
  | Some _ => inr None
  end.

(** The truth value of [if (value)]. *)
Definition truthy (value : option t) : bool :=
  match value with
  | None | Some Null => false
  | Some (Bool b) => b
  | Some (Number z) => negb (z =? 0)
  | Some (String s) => negb (String.eqb s "")
  | Some (Array _) | Some (Object _) => true
  end.

End Json.

(** ** [api/dfu.js]: reading the update package *)

Module Dfu.
Import DfuConstants.

(** A loaded archive: the name of each file with what reading it
    ([async]) gives, the content or an error. *)
Abbreviation ZipObject := (gmap string (JsError + string)).

(** The platform below the package reader: [fs.readFile], [JSZip.loadAsync]
    and [JSON.parse]. *)
Record Platform := {
  fs_readFile : string -> JsError + string;
  JSZip_loadAsync : string -> JsError + ZipObject;
  JSON_parse : string -> JsError + Json.t
}.

(** What a function that takes a callback did: the exception it threw to
    its caller, the files it asked [fs] to read, and the calls of the
    callback with their arguments, [(err)] or [(undefined, value)]. *)
Record Run (A : Type) := {
  thrown : option JsError;
  reads : list string;
  calls : list (JsError + A)
}.
Arguments thrown {A} _.
Arguments reads {A} _.
Arguments calls {A} _.

(** How a promise ends; [Pending] is a promise that is never settled. *)
Inductive Settlement (A : Type) :=
| Fulfilled (a : A)
| RejectedWith (e : JsError)
| Pending.
Arguments Fulfilled {A} a.
Arguments RejectedWith {A} e.
Arguments Pending {A}.

(** [_loadZip(zipFilePath, callback)].  The callback is given by what it
    does with its arguments: it throws, or it makes calls of the callback
    of its own caller.  An exception of the callback inside
    [.then((zip) => callback(undefined, zip))] is caught by the [.catch]
    that follows, which calls the callback again, with the exception; an
    exception of the callback anywhere else is lost. *)
Definition _loadZip {A} (p : Platform) (zipFilePath : string)
    (callback : JsError + ZipObject -> JsError + list (JsError + A))
    : list string * list (JsError + A) :=
  let lost (r : JsError + list (JsError + A)) :=
    match r with inl _ => [] | inr calls => calls end in
  ([zipFilePath],
   match fs_readFile p zipFilePath with
   | inl err => lost (callback (inl err))
   | inr data =>
       match JSZip_loadAsync p data with
       | inl err => lost (callback (inl err))
       | inr zip =>
           match callback (inr zip) with
           | inr calls => calls
           | inl err => lost (callback (inl err))
           end
       end
   end).

(** [getManifest(zipFilePath, callback)]. *)
Definition getManifest (p : Platform) (zipFilePath : option Json.t)
    : Run (option Json.t) :=
  let throw message :=
    {| thrown := Some (PlainError message); reads := []; calls := [] |} in
  match zipFilePath with
  | None => throw "Missing argument zipFilePath."
  | Some (Json.String path) =>
      if (String.length path =? 0)%nat then
        throw "zipFilePath must be a non-empty string."
      else
        let '(reads, calls) :=
          _loadZip p path (fun r =>
            match r with
            | inl err => inr [inl err]
            | inr zip =>
                match zip !! "manifest.json" with
                | None => inl (TypeError "Cannot read property 'async' of null")
                | Some (inl err) => inr [inl err]
                | Some (inr data) =>
                    match JSON_parse p data with
                    | inl err => inr [inl err]
                    | inr json =>
                        match Json.get (Some json) "manifest" with
                        | inl err => inr [inl err]
                        | inr manifest => inr [inr manifest]
                        end
                    end
                end
            end) in
        {| thrown := None; reads := reads; calls := calls |}
  | Some _ => throw "zipFilePath must be a non-empty string."
  end.

(** A promise built around a function that takes a callback: an exception
    of the function rejects it, otherwise the first call of the callback
    settles it. *)
Definition promisify {A} (r : Run A) : Settlement A :=
  match thrown r with
  | Some err => RejectedWith err
  | None =>
      match calls r with
      | inl err :: _ => RejectedWith err
      | inr value :: _ => Fulfilled value
      | [] => Pending
      end
  end.

Definition _getManifestAsync (p : Platform) (zipFilePath : option Json.t)
    : Settlement (option Json.t) :=
  promisify (getManifest p zipFilePath).

Definition _loadZipAsync (p : Platform) (zipFilePath : string)
    : Settlement ZipObject :=
  let '(reads, calls) := _loadZip p zipFilePath (fun r => inr [r]) in
  promisify {| thrown := None; reads := reads; calls := calls |}.

(** The binary accessor [() => zip.file(update[key]).async('binarystring')]:
    calling it throws when the archive has no such file, and otherwise
    returns the promise of the content.  A name that is not a string is
    taken as the name of no file. *)
Definition accessor (zip : ZipObject) (update : option Json.t) (key : string)
    : unit -> JsError + Settlement string :=
  fun _ =>
    match Json.get update key with
    | inl err => inl err
    | inr (Some (Json.String name)) =>
        match zip !! name with
        | Some (inr content) => inr (Fulfilled content)
        | Some (inl err) => inr (RejectedWith err)
        | None => inl (TypeError "Cannot read property 'async' of null")
        end
    | inr _ => inl (TypeError "Cannot read property 'async' of null")
    end.

(** An element of [updates]: [{ initPacket, firmware }]. *)
Record Update := {
  initPacket : unit -> JsError + Settlement string;
  firmware : unit -> JsError + Settlement string
}.

Definition makeUpdate (zip : ZipObject) (update : option Json.t) : Update :=
  {| initPacket := accessor zip update "dat_file";
     firmware := accessor zip update "bin_file" |}.

(** [createUpdatePromise(updateType)], as the array [updates] after it.  The
    two accessors are handed to [Promise.all] without being called, so the
    [push] follows with the accessors themselves.  The promise is resolved
    before the [push]; still the [push] comes before the next link of the
    chain: [Promise.all] over two values that are no promises is fulfilled
    after two jobs of the promise queue, which are queued before the job that
    adopts the returned promise, so the job of [push] is queued before the
    job that fulfils the link.  An exception of [manifest[updateType]]
    rejects the promise. *)
Definition createUpdatePromise (zip : ZipObject) (manifest : option Json.t)
    (updateType : string) (updates : list Update) : JsError + list Update :=
  match Json.get manifest updateType with
  | inl err => inl err
  | inr update =>
      if Json.truthy update then inr (updates ++ [makeUpdate zip update])
      else inr updates
  end.

Definition updateTypes : list string :=
  ["softdevice"; "bootloader"; "softdevice_bootloader"; "application"].

(** The chain [promiseChain.then(() => createUpdatePromise(updateType))]
    over the update types, in their order. *)
Fixpoint promiseChain (zip : ZipObject) (manifest : option Json.t)
    (types : list string) (updates : list Update) : JsError + list Update :=
  match types with
  | [] => inr updates
  | updateType :: types =>
      match createUpdatePromise zip manifest updateType updates with
      | inl err => inl err
      | inr updates => promiseChain zip manifest types updates
      end
  end.

(** [_fetchUpdates(zipFilePath)].  [Promise.all] is rejected with the first
    rejection: that of [getManifest] when it throws at once, and otherwise
    that of the archive, which both promises read alike.  A rejected chain
    has no handler; the promise of [_fetchUpdates] is then never settled. *)
Definition _fetchUpdates (p : Platform) (zipFilePath : string)
    : Settlement (list Update) :=
  let path := Some (Json.String zipFilePath) in
  match thrown (getManifest p path) with
  | Some err => RejectedWith err
  | None =>
      match _loadZipAsync p zipFilePath, _getManifestAsync p path with
      | RejectedWith err, _ => RejectedWith err
      | _, RejectedWith err => RejectedWith err
      | Fulfilled zip, Fulfilled manifest =>
          let updates := [] in
          match promiseChain zip manifest updateTypes updates with
          | inr updates => Fulfilled updates
          | inl _ => Pending
          end
      | _, _ => Pending
      end
  end.

End Dfu.


(** ** [api/dfu.js]: the [Dfu] object and its device *)

(** A characteristic of a service, and a service of a device, as
    [getAttributes] of the adapter gives them. *)
Module GattCharacteristic.
Record t := make { uuid : string }.
End GattCharacteristic.

Module GattService.
Record t := make {
  uuid : string;
  characteristics : list (string * GattCharacteristic.t)
}.
End GattService.

Module DfuObject.
Import DfuConstants.

Definition SECURE_DFU_SERVICE_UUID : string := "FE59".
Definition SECURE_DFU_CONTROL_POINT_UUID : string :=
  "8EC90001F3154F609FB8838830DAEA50".
Definition SECURE_DFU_PACKET_UUID : string :=
  "8EC90002F3154F609FB8838830DAEA50".

(** The services of a device, [data['services']]: an object from ids to
    services, given by its properties in the order in which [for ... in]
    visits them. *)
Abbreviation Services := (list (string * GattService.t)).

(** What a promise is rejected with, or what is thrown: an error, or, as in
    [_getCharacteristics], a string. *)
Inductive Reason :=
| Because (error : JsError)
| Saying (text : string).

(** An argument of [console.log]. *)
Inductive Printed :=
| PrintString (text : string)
| PrintError (error : JsError)
| PrintUndefined.

(** What the object does to the outside: the calls of its adapter with
    their answers, the events it emits, and what it prints. *)
Inductive Event :=
| GetAttributes (deviceInstanceId : string) (answer : JsError + Services)
| StartCharacteristicsNotifications (characteristicId : string) (ack : bool)
    (err : option JsError)
| StopCharacteristicsNotifications (characteristicId : option string)
    (err : option JsError)
| On
| RemoveListener
| EmitInitialized
| EmitError (err : Reason)
| EmitControlPointResponse (value : list byte)
| ConsoleLog (arguments : list Printed).

(** The adapter.  It is not among the sources; each answer may depend on
    what happened before and on the arguments of the call. *)
Record Adapter := {
  getAttributes : list Event -> string -> JsError + Services;
  startCharacteristicsNotifications :
    list Event -> string -> bool -> option JsError;
  stopCharacteristicsNotifications :
    list Event -> option string -> option JsError
}.

(** The fields of a [Dfu] object ([None] is [null] or [undefined]), and the
    log of what it did. *)
Record State := {
  _adapter : option Adapter;
  _zipFilePath : option string;
  _instanceId : option string;
  _controlPointCharacteristicId : option string;
  _packetCharacteristicId : option string;
  log : list Event
}.

Definition record (ev : Event) (s : State) : State :=
  {| _adapter := _adapter s;
     _zipFilePath := _zipFilePath s;
     _instanceId := _instanceId s;
     _controlPointCharacteristicId := _controlPointCharacteristicId s;
     _packetCharacteristicId := _packetCharacteristicId s;
     log := log s ++ [ev] |}.

(** [new Dfu(adapter)]; the adapter is [null] when none is given. *)
Definition constructor (adapter : option Adapter) : State :=
  {| _adapter := adapter;
     _zipFilePath := None;
     _instanceId := None;
     _controlPointCharacteristicId := None;
     _packetCharacteristicId := None;
     log := [] |}.

(** [_getAttributes(deviceInstanceId)].  Without an adapter the call of
    its method throws inside the promise, which is then rejected. *)
Definition _getAttributes (deviceInstanceId : string) (s : State)
    : State * (Reason + Services) :=
  match _adapter s with
  | None =>
      (s, inl (Because
                 (TypeError "Cannot read property 'getAttributes' of null")))
  | Some adapter =>
      let answer := getAttributes adapter (log s) deviceInstanceId in
      (record (GetAttributes deviceInstanceId answer) s,
       match answer with
       | inl err => inl (Because err)
       | inr data => inr data
       end)
  end.

(** [_getCharacteristics(serviceUUID, instanceId)].  The loop calls
    [resolve] for every service with the UUID and goes on; [reject] is
    called after the loop in any case.  The first of these calls settles
    the promise. *)
Definition _getCharacteristics (serviceUUID instanceId : string) (s : State)
    : State * (Reason + list (string * GattCharacteristic.t)) :=
  match _getAttributes instanceId s with
  | (s', inr data) =>
      let calls :=
        flat_map
          (fun '(id, service) =>
             if String.eqb (GattService.uuid service) serviceUUID
             then [inr (GattService.characteristics service)]
             else [])
          data
        ++ [inl (Saying ("Could not find service: " +:+ serviceUUID))] in
      (s', default (inl (Saying ("Could not find service: " +:+ serviceUUID)))
             (head calls))
  | (s', inl err) => (s', inl err)
  end.

(** [_getCharacteristic(characteristics, uuid)]: the id of the first
    characteristic with the UUID, or an exception. *)
Fixpoint _getCharacteristic
    (characteristics : list (string * GattCharacteristic.t)) (uuid : string)
    : JsError + string :=
  match characteristics with
  | [] => inl (PlainError ("Could not find characteristic: " +:+ uuid))
  | (id, characteristic) :: characteristics =>
      if String.eqb (GattCharacteristic.uuid characteristic) uuid then inr id
      else _getCharacteristic characteristics uuid
  end.

(** [_forwardControlPointResponse(characteristic)], for a characteristic
    with the fields [_instanceId] and [value]. *)
Definition _forwardControlPointResponse (_instanceId : string)
    (value : list byte) (s : State) : State :=
  if bool_decide (Some _instanceId = _controlPointCharacteristicId s)
  then record (EmitControlPointResponse value) s
  else s.

(** [_setupCharacteristics(characteristics)].  The ids are assigned one
    after the other, so that the first stays assigned when the second is
    not found. *)
Definition _setupCharacteristics
    (characteristics : list (string * GattCharacteristic.t)) (s : State)
    : State * (Reason + unit) :=
  match _getCharacteristic characteristics SECURE_DFU_CONTROL_POINT_UUID with
  | inl err => (s, inl (Because err))
  | inr controlPoint =>
      let s :=
        {| _adapter := _adapter s;
           _zipFilePath := _zipFilePath s;
           _instanceId := _instanceId s;
           _controlPointCharacteristicId := Some controlPoint;
           _packetCharacteristicId := _packetCharacteristicId s;
           log := log s |} in
      match _getCharacteristic characteristics SECURE_DFU_PACKET_UUID with
      | inl err => (s, inl (Because err))
      | inr packet =>
          let s :=
            {| _adapter := _adapter s;
               _zipFilePath := _zipFilePath s;
               _instanceId := _instanceId s;
               _controlPointCharacteristicId := _controlPointCharacteristicId s;
               _packetCharacteristicId := Some packet;
               log := log s |} in
          match _adapter s with
          | None =>
              (s, inl (Because
                         (TypeError "Cannot read property 'startCharacteristicsNotifications' of null")))
          | Some adapter =>
              let err :=
                startCharacteristicsNotifications adapter (log s)
                  controlPoint false in
              let s :=
                record (StartCharacteristicsNotifications controlPoint false err) s in
              match err with
              | Some err => (s, inl (Because err))
              | None => (record On s, inr tt)
              end
          end
      end
  end.

(** [_initDFU(instanceId)]. *)
Definition _initDFU (instanceId : string) (s : State) : State :=
  match _getCharacteristics SECURE_DFU_SERVICE_UUID instanceId s with
  | (s, inr characteristics) =>
      match _setupCharacteristics characteristics s with
      | (s, inr _) => record EmitInitialized s
      | (s, inl err) => record (EmitError err) s
      end
  | (s, inl err) => record (EmitError err) s
  end.

(** [_uninitDFU()]: the state after it, or the exception of calling a
    method of an adapter that is [null].  The callback of
    [stopCharacteristicsNotifications] prints in any case. *)
Definition _uninitDFU (s : State) : JsError + State :=
  match _adapter s with
  | None =>
      inl (TypeError "Cannot read property 'stopCharacteristicsNotifications' of null")
  | Some adapter =>
      let err :=
        stopCharacteristicsNotifications adapter (log s)
          (_controlPointCharacteristicId s) in
      let s :=
        record (StopCharacteristicsNotifications
                  (_controlPointCharacteristicId s) err) s in
      let s := record RemoveListener s in
      let s :=
        record (ConsoleLog
                  [PrintString "Can not stop characteristics notifications: ";
                   match err with
                   | Some err => PrintError err
                   | None => PrintUndefined
                   end]) s in
      inr {| _adapter := _adapter s;
             _zipFilePath := _zipFilePath s;
             _instanceId := _instanceId s;
             _controlPointCharacteristicId := None;
             _packetCharacteristicId := None;
             log := log s |}
  end.

(** [a || b] for values that are [undefined] or strings: the empty string
    counts as missing. *)
Definition orString (a b : option string) : option string :=
  match a with
  | Some text => if String.eqb text "" then b else a
  | None => b
  end.

(** [a || b] for values that are [null], [undefined] or objects. *)
Definition orObject {A} (a b : option A) : option A :=
  match a with Some _ => a | None => b end.

(** [!a] for a value that is [undefined] or a string. *)
Definition missing (a : option string) : bool :=
  match a with
  | Some text => String.eqb text ""
  | None => true
  end.

(** [performDFU(zipFilePath, adapter, instanceId)], for a path and an
    instance id that are strings or [undefined]: the state after it and the
    exception, if it throws one.  What it prints is logged. *)
Definition performDFU (p : Dfu.Platform) (zipFilePath : option string)
    (adapter : option Adapter) (instanceId : option string) (s : State)
    : State * option JsError :=
  let s :=
    {| _adapter := orObject adapter (_adapter s);
       _zipFilePath := orString zipFilePath (_zipFilePath s);
       _instanceId := orString instanceId (_instanceId s);
       _controlPointCharacteristicId := _controlPointCharacteristicId s;
       _packetCharacteristicId := _packetCharacteristicId s;
       log := log s |} in
  if missing (_zipFilePath s) then
    (s, Some (PlainError "No zipFilePath provided."))
  else if bool_decide (_adapter s = None :> option Adapter) then
    (s, Some (PlainError "No adapter provided."))
  else if missing (_instanceId s) then
    (s, Some (PlainError "No instance ID provided."))
  else
    match Dfu._fetchUpdates p (default "" (_zipFilePath s)) with
    | Dfu.Fulfilled updates =>
        match updates with
        | [] =>
            (record (ConsoleLog
                       [PrintError
                          (TypeError "Cannot read property 'initPacket' of undefined")])
               s, None)
        | update :: _ =>
            match Dfu.initPacket update tt with
            | inl err => (record (ConsoleLog [PrintError err]) s, None)
            | inr (Dfu.Fulfilled data) =>
                (record (ConsoleLog [PrintString data]) s, None)
            | inr _ => (s, None)
            end
        end
    | Dfu.RejectedWith err => (record (ConsoleLog [PrintError err]) s, None)
    | Dfu.Pending => (s, None)
    end.

End DfuObject.

(** ** [src/common.h]: from JavaScript values to native integers *)

Module ConvUtil.

(** A JavaScript number: a finite number, given by its value, [NaN], or an
    infinity.  The doubles are some of the rationals. *)
Inductive Number :=
| Finite (q : Q)
| NaN
| Infinity (negative : bool).

(** A JavaScript value, as far as the conversions tell values apart. *)
Inductive Value :=
| JsNumber (n : Number)
| JsBoolean (b : bool)
| JsOther.

Definition IsNumber (js : Value) : bool :=
  match js with JsNumber _ => true | _ => false end.

Definition IsBoolean (js : Value) : bool :=
  match js with JsBoolean _ => true | _ => false end.

(** The integer part of a number, rounded towards zero. *)
Definition truncate (q : Q) : Z :=
  if Qle_bool 0 q then Qfloor q else Qceiling q.

(** [js->ToUint32()->Uint32Value()] of a number: [NaN] and the infinities
    give 0, any other number its integer part modulo [2^32]. *)
Definition Uint32Value (n : Number) : Z :=
  match n with
  | Finite q => truncate q mod 2 ^ 32
  | NaN | Infinity _ => 0
  end.

(** [static_cast<NativeType>] of an unsigned value of 32 bits, for an
    unsigned [NativeType] of [bits] bits. *)
Definition static_cast (bits : Z) (value : Z) : Z := value mod 2 ^ bits.

(** [ConvUtil<NativeType>::getNativeUnsigned(js)], for an unsigned
    [NativeType] of [bits] bits: the value, or the string that is thrown. *)
Definition getNativeUnsigned (bits : Z) (js : Value) : string + Z :=
  match js with
  | JsNumber n => inr (static_cast bits (Uint32Value n))
  | _ => inl "number"
  end.

(** [ConvUtil<NativeType>::getNativeBool(js)], for an unsigned [NativeType]
    of [bits] bits. *)
Definition getNativeBool (bits : Z) (js : Value) : string + Z :=
  match js with
  | JsBoolean b => inr (static_cast bits (if b then 1 else 0))
  | _ => inl "bool"
  end.

End ConvUtil.

(** * Definitions used to state the properties *)

(** [l[a..b]], the elements of [l] from index [a] up to index [b], the
    latter excluded, as the specification writes it. *)
Definition range {A} (l : list A) (a b : Z) : list A :=
  take (Z.to_nat (b - a)) (drop (Z.to_nat a) l).

(** The partial object in the words of the specification. *)
Definition remainingPartialObject_spec (firmware : list byte)
    (max_size offset : Z) : list byte :=
  if decide (offset <> 0 /\ offset <> Js.length firmware
             /\ offset mod max_size <> 0)
  then range firmware offset (offset + max_size - offset mod max_size)
  else [].

(** A payload of [n] bytes: the byte at index [i] is [i mod 256]. *)
Definition payload (n : nat) : list byte :=
  map (fun i => default x00 (Byte.of_nat (i mod 256))) (seq 0 n).

(** One attempt of [tryWrite]: [CREATE], then the write-object procedure. *)
Definition attempt (data : list byte) (type : DfuConstants.ObjectType)
    (offset crc32 : option Z) : Promise.M Progress.t :=
  (Promise.createObject type (Js.length data) ;;;
   DfuTransport._writeObject data type offset crc32)%promise.

(** The events that a run added to the log. *)
Definition added (s s' : Promise.State) : list Promise.Event :=
  drop (length (Promise.log s)) (Promise.log s').

Definition isExecute (ev : Promise.Event) : bool :=
  match ev with Promise.Execute _ => true | _ => false end.

Definition isExecuted (ev : Promise.Event) : bool :=
  match ev with Promise.Execute None => true | _ => false end.

Definition isCreate (ev : Promise.Event) : bool :=
  match ev with Promise.CreateObject _ _ _ => true | _ => false end.

Definition isObjectEvent (ev : Promise.Event) : bool :=
  match ev with
  | Promise.CreateObject _ _ _ | Promise.WriteObject _ _ _ _ _
  | Promise.CalculateChecksum _ | Promise.Execute _ => true
  | _ => false
  end.

(** The number of events of a kind. *)
Definition count (kind : Promise.Event -> bool) (events : list Promise.Event)
    : nat :=
  length (List.filter kind events).

(** The number of [EXECUTE] commands issued, of those that succeeded, and of
    [CREATE] commands issued. *)
Definition executes : list Promise.Event -> nat := count isExecute.
Definition executed : list Promise.Event -> nat := count isExecuted.
Definition creates : list Promise.Event -> nat := count isCreate.

(** The number of objects of a payload of length [L] for a maximum object
    size [M]: [L / M], rounded up. *)
Definition objectCount (L M : Z) : nat := Z.to_nat ((L + M - 1) / M).

(** *** Collaborators to run the transport against *)

(** The progress that the last [WriteObject] of a log returned, if any. *)
Fixpoint lastWritten (events : list Promise.Event) : option Progress.t :=
  match events with
  | [] => None
  | ev :: events =>
      match lastWritten events with
      | Some progress => Some progress
      | None =>
          match ev with
          | Promise.WriteObject _ _ _ _ (inr progress) => Some progress
          | _ => None
          end
      end
  end.

(** A target that answers [SELECT] with [selected] and follows the data
    model otherwise: every command succeeds, the writer adds the length of
    the data to the offset and updates the checksum with the data (from 0
    when it is given no start value), and [CALCULATE_CRC] reports the
    progress of the last write. *)
Definition target (selected : SelectResponse.t) : Promise.World :=
  {| Promise.adapter_startCharacteristicsNotifications := fun _ _ _ => None;
     Promise.adapter_stopCharacteristicsNotifications := fun _ _ => None;
     Promise.controlPointService_selectObject := fun _ _ => inr selected;
     Promise.controlPointService_createObject := fun _ _ _ => None;
     Promise.controlPointService_setPRN := fun _ _ => None;
     Promise.controlPointService_calculateChecksum := fun events =>
       inr (default (Progress.make 0 0) (lastWritten events));
     Promise.controlPointService_execute := fun _ => None;
     Promise.objectWriter_writeObject := fun _ data _ offset crc32 =>
       inr (Progress.make (default 0 offset + Js.length data)
              (Crc.crc32_update (default 0 crc32) data)) |}.

(** The same target, except that [CREATE] always fails with [error]. *)
Definition refusing (error : DfuConstants.JsError)
    (selected : SelectResponse.t) : Promise.World :=
  let w := target selected in
  {| Promise.adapter_startCharacteristicsNotifications :=
       Promise.adapter_startCharacteristicsNotifications w;
     Promise.adapter_stopCharacteristicsNotifications :=
       Promise.adapter_stopCharacteristicsNotifications w;
     Promise.controlPointService_selectObject :=
       Promise.controlPointService_selectObject w;
     Promise.controlPointService_createObject := fun _ _ _ => Some error;
     Promise.controlPointService_setPRN := Promise.controlPointService_setPRN w;
     Promise.controlPointService_calculateChecksum :=
       Promise.controlPointService_calculateChecksum w;
     Promise.controlPointService_execute :=
       Promise.controlPointService_execute w;
     Promise.objectWriter_writeObject := Promise.objectWriter_writeObject w |}.

(** The same target, except that the first [EXECUTE] fails with [error]. *)
Definition stumbling (error : DfuConstants.JsError)
    (selected : SelectResponse.t) : Promise.World :=
  let w := target selected in
  {| Promise.adapter_startCharacteristicsNotifications :=
       Promise.adapter_startCharacteristicsNotifications w;
     Promise.adapter_stopCharacteristicsNotifications :=
       Promise.adapter_stopCharacteristicsNotifications w;
     Promise.controlPointService_selectObject :=
       Promise.controlPointService_selectObject w;
     Promise.controlPointService_createObject :=
       Promise.controlPointService_createObject w;
     Promise.controlPointService_setPRN := Promise.controlPointService_setPRN w;
     Promise.controlPointService_calculateChecksum :=
       Promise.controlPointService_calculateChecksum w;
     Promise.controlPointService_execute := fun events =>
       if existsb isExecute events then None else Some error;
     Promise.objectWriter_writeObject := Promise.objectWriter_writeObject w |}.

(** A transport as [new DfuTransport] leaves it. *)
Definition fresh : Promise.State := DfuTransport.constructor "control" "packet".

(** The chain of [_createAndWriteObjects], object by object. *)
Fixpoint writeEach (objects : list (list byte)) (type : DfuConstants.ObjectType)
    (progress : Progress.t) : Promise.M Progress.t :=
  match objects with
  | [] => Promise.resolve progress
  | object :: objects =>
      (progress <- DfuTransport._createAndWriteObject object type
                     (Some (Progress.offset progress))
                     (Some (Progress.crc32 progress)) ;;
       writeEach objects type progress)%promise
  end.

(** What [sendFirmware] does with the response of [SELECT]. *)
Definition firmwareFlow (firmware : list byte) (response : SelectResponse.t)
    : Promise.M Progress.t :=
  let objectType := DfuConstants.DATA in
  let state := DfuTransport._getFirmwareState firmware response in
  let offset := DfuTransport.FirmwareState.offset state in
  let crc32 := DfuTransport.FirmwareState.crc32 state in
  let objects := DfuTransport.FirmwareState.objects state in
  let partialObject := DfuTransport.FirmwareState.partialObject state in
  if Js.length partialObject >? 0 then
    (DfuTransport._emitResumeEvent offset objectType ;;;
     progress <- DfuTransport._writeObject partialObject objectType
                   (Some offset) (Some crc32) ;;
     DfuTransport._createAndWriteObjects objects objectType
       (Progress.offset progress) (Progress.crc32 progress))%promise
  else DfuTransport._createAndWriteObjects objects objectType offset crc32.

Definition isSelect (ev : Promise.Event) : bool :=
  match ev with Promise.SelectObject _ _ => true | _ => false end.

(** The start of [sendInitPacket] and of [sendFirmware]: the initialize
    event, [_open], and [SELECT]. *)
Definition selecting (type : DfuConstants.ObjectType)
    : Promise.M SelectResponse.t :=
  (DfuTransport._emitInitializeEvent type ;;;
   DfuTransport._open ;;;
   Promise.selectObject type)%promise.

(** What [sendInitPacket] does with the response of [SELECT]. *)
Definition initPacketFlow (initPacket : list byte) (response : SelectResponse.t)
    : Promise.M Progress.t :=
  let objectType := DfuConstants.COMMAND in
  let maximumSize := SelectResponse.maximumSize response in
  let offset := SelectResponse.offset response in
  let crc32 := SelectResponse.crc32 response in
  (DfuTransport._validateInitPacketSize initPacket maximumSize ;;;
   if DfuTransport._canResumePartiallyWrittenObject initPacket offset crc32 then
     DfuTransport._emitResumeEvent offset objectType ;;;
     DfuTransport._writeObject (Js.sliceFrom initPacket offset) objectType
       (Some offset) (Some crc32)
   else DfuTransport._createAndWriteObject initPacket objectType None None)%promise.

Definition isCheck (ev : Promise.Event) : bool :=
  match ev with
  | Promise.CalculateChecksum _ | Promise.Execute _ => true
  | _ => false
  end.

Definition isStart (ev : Promise.Event) : bool :=
  match ev with
  | Promise.StartCharacteristicsNotifications _ _ _ => true
  | _ => false
  end.

Definition isStop (ev : Promise.Event) : bool :=
  match ev with
  | Promise.StopCharacteristicsNotifications _ _ => true
  | _ => false
  end.



(** The operations of a transport, and a caller that performs some of them
    one after the other, whatever their outcome. *)
Inductive Operation :=
| SendInitPacket (initPacket : list byte)
| SendFirmware (firmware : list byte)
| SetPrn (prn : Z)
| SetMtuSize (mtuSize : Z)
| Abort
| Close.

Definition perform (op : Operation) (w : Promise.World) (s : Promise.State)
    : Promise.State :=
  match op with
  | SendInitPacket initPacket => fst (DfuTransport.sendInitPacket initPacket w s)
  | SendFirmware firmware => fst (DfuTransport.sendFirmware firmware w s)
  | SetPrn prn => fst (DfuTransport.setPrn prn w s)
  | SetMtuSize mtuSize => fst (DfuTransport.setMtuSize mtuSize w s)
  | Abort => fst (DfuTransport.abort w s)
  | Close => fst (DfuTransport.close w s)
  end.

Definition performAll (ops : list Operation) (w : Promise.World)
    (s : Promise.State) : Promise.State :=
  fold_left (fun s op => perform op w s) ops s.

(** *** The package reader *)

(** The updates of a manifest in the words of the specification: its slots
    in the order softdevice, bootloader, softdevice_bootloader,
    application, each slot that the manifest has. *)
Definition updatesOf (zip : Dfu.ZipObject) (manifest : list (string * Json.t))
    : list Dfu.Update :=
  flat_map
    (fun slot =>
       let update := Json.lookup slot manifest in
       if Json.truthy update then [Dfu.makeUpdate zip update] else [])
    ["softdevice"; "bootloader"; "softdevice_bootloader"; "application"].

(** A platform on which every path names the archive [zip], and every text
    parses as [parsed]. *)
Definition platform (zip : Dfu.ZipObject)
    (parsed : DfuConstants.JsError + Json.t) : Dfu.Platform :=
  {| Dfu.fs_readFile := fun _ => inr "archive";
     Dfu.JSZip_loadAsync := fun _ => inr zip;
     Dfu.JSON_parse := fun _ => parsed |}.

Definition slot (dat_file bin_file : string) : Json.t :=
  Json.Object [("bin_file", Json.String bin_file);
               ("dat_file", Json.String dat_file)].

(** A manifest that names the application first and the softdevice last,
    and has a slot that the reader does not know. *)
Definition manifest : list (string * Json.t) :=
  [("application", slot "app.dat" "app.bin");
   ("bootloader", slot "bl.dat" "bl.bin");
   ("extra", slot "x.dat" "x.bin");
   ("softdevice", slot "sd.dat" "sd.bin")].

(** An archive with that manifest and the files of the application only. *)
Definition archive : Dfu.ZipObject :=
  {[ "manifest.json" := inr "manifest";
     "app.dat" := inr "init packet";
     "app.bin" := inr "firmware" ]}.


(** *** Kinds of events, and what a run adds to the log *)

Section Runs.
Import DfuConstants Promise DfuTransport.

(** A computation that only adds events to the log, all of the kind [P]. *)
Definition adding {A} (P : Event -> bool) (c : M A) : Prop :=
  forall w s, exists events,
    fst (c w s) = append events s /\ forallb P events = true.

(** What a run that ended in state [s'] with outcome [o] added to the log of
    [s]: [events], of which [P] holds. *)
Definition adds {A} (run : State * Outcome A) (s : State)
    (P : list Event -> Outcome A -> Prop) : Prop :=
  exists events, fst run = append events s /\ P events (snd run).

(** The events of one write-object procedure. *)
Definition writeProfile (events : list Event) (o : Outcome Progress.t) : Prop :=
  forallb isObjectEvent events = true
  /\ creates events = 0%nat
  /\ match o with
     | Resolved _ => executes events = 1%nat /\ executed events = 1%nat
     | Rejected _ => (executes events <= 1)%nat /\ executed events = 0%nat
     | Unfinished => False
     end.

(** The events of one attempt: one [CREATE], and what the write-object
    procedure adds. *)
Definition attemptProfile (events : list Event) (o : Outcome Progress.t)
    : Prop :=
  forallb isObjectEvent events = true
  /\ creates events = 1%nat
  /\ match o with
     | Resolved _ => executes events = 1%nat /\ executed events = 1%nat
     | Rejected _ => (executes events <= 1)%nat /\ executed events = 0%nat
     | Unfinished => False
     end.

(** The events of [_createAndWriteObject]: at most three attempts, of which
    only the last one can succeed. *)
Definition objectProfile (most : nat) (events : list Event)
    (o : Outcome Progress.t) : Prop :=
  forallb isObjectEvent events = true
  /\ (1 <= creates events <= most)%nat
  /\ (executes events <= creates events)%nat
  /\ match o with
     | Resolved _ => (1 <= executes events)%nat /\ executed events = 1%nat
     | Rejected _ => executed events = 0%nat
     | Unfinished => False
     end.

(** The events of a chain of objects: when it resolves, one [EXECUTE]
    succeeded for each object, and at most three were issued for each. *)
Definition chainProfile (n : nat) (events : list Event)
    (o : Outcome Progress.t) : Prop :=
  forallb isObjectEvent events = true
  /\ match o with
     | Resolved _ =>
         executed events = n /\ (n <= executes events <= 3 * n)%nat
     | Rejected _ => True
     | Unfinished => False
     end.

Definition notStop (ev : Event) : bool := negb (isStop ev).

End Runs.

(** *** Reading a log *)

(** A log in short: the commands with their sizes and outcomes. *)
Inductive Step :=
| Create (type : Z) (size : Z) (ok : bool)
| Write (size : Z) (seeded : option (Z * Z)) (progress : option Z)
| Calc (offset : option Z)
| Exec (ok : bool)
| Select (type : Z)
| Notify (on : bool)
| Stage (stage : string) (offset : Z)
| Other.

Definition step (ev : Promise.Event) : Step :=
  match ev with
  | Promise.StartCharacteristicsNotifications _ _ _ => Notify true
  | Promise.StopCharacteristicsNotifications _ _ => Notify false
  | Promise.SelectObject type _ => Select (DfuConstants.ObjectType_value type)
  | Promise.CreateObject type size error =>
      Create (DfuConstants.ObjectType_value type) size
        (bool_decide (error = None))
  | Promise.CalculateChecksum answer =>
      Calc (match answer with
            | inr progress => Some (Progress.offset progress)
            | inl _ => None
            end)
  | Promise.Execute error => Exec (bool_decide (error = None))
  | Promise.WriteObject data _ offset crc32 answer =>
      Write (Js.length data)
        (match offset, crc32 with
         | Some offset, Some crc32 => Some (offset, crc32)
         | _, _ => None
         end)
        (match answer with
         | inr progress => Some (Progress.offset progress)
         | inl _ => None
         end)
  | Promise.ProgressUpdate stage offset => Stage stage offset
  | _ => Other
  end.

(** The same target as [target], except that the second [CREATE] fails with
    [error]. *)
Definition hesitating (error : DfuConstants.JsError)
    (selected : SelectResponse.t) : Promise.World :=
  let w := target selected in
  {| Promise.adapter_startCharacteristicsNotifications :=
       Promise.adapter_startCharacteristicsNotifications w;
     Promise.adapter_stopCharacteristicsNotifications :=
       Promise.adapter_stopCharacteristicsNotifications w;
     Promise.controlPointService_selectObject :=
       Promise.controlPointService_selectObject w;
     Promise.controlPointService_createObject := fun events _ _ =>
       if (count isCreate events =? 1)%nat then Some error else None;
     Promise.controlPointService_setPRN := Promise.controlPointService_setPRN w;
     Promise.controlPointService_calculateChecksum :=
       Promise.controlPointService_calculateChecksum w;
     Promise.controlPointService_execute :=
       Promise.controlPointService_execute w;
     Promise.objectWriter_writeObject := Promise.objectWriter_writeObject w |}.

(** *** More kinds of events *)

(** An event that names an object type names [type]. *)
Definition typed (type : DfuConstants.ObjectType) (ev : Promise.Event) : bool :=
  match ev with
  | Promise.SelectObject t _ | Promise.CreateObject t _ _
  | Promise.WriteObject _ t _ _ _ => bool_decide (t = type)
  | _ => true
  end.

Definition isWriterSetPrn (ev : Promise.Event) : bool :=
  match ev with Promise.WriterSetPrn _ => true | _ => false end.

(** *** The device of a [Dfu] object *)

(** The first entry of an object whose value has the UUID. *)
Definition firstWith {A} (uuidOf : A -> string) (uuid : string)
    (entries : list (string * A)) : option (string * A) :=
  List.find (fun entry => String.eqb (uuidOf entry.2) uuid) entries.

Definition isOn (ev : DfuObject.Event) : bool :=
  match ev with DfuObject.On => true | _ => false end.

Definition isRemoveListener (ev : DfuObject.Event) : bool :=
  match ev with DfuObject.RemoveListener => true | _ => false end.

Definition isEmit (ev : DfuObject.Event) : bool :=
  match ev with
  | DfuObject.EmitInitialized | DfuObject.EmitError _
  | DfuObject.EmitControlPointResponse _ => true
  | _ => false
  end.

Definition isConsoleLog (ev : DfuObject.Event) : bool :=
  match ev with DfuObject.ConsoleLog _ => true | _ => false end.

(** A device with the DFU service after another service; the DFU service
    has the packet characteristic before the control point. *)
Definition device : list (string * GattService.t) :=
  [("service.1",
    GattService.make "1800" [("characteristic.1", GattCharacteristic.make "2A00")]);
   ("service.2",
    GattService.make DfuObject.SECURE_DFU_SERVICE_UUID
      [("characteristic.2",
        GattCharacteristic.make DfuObject.SECURE_DFU_PACKET_UUID);
       ("characteristic.3",
        GattCharacteristic.make DfuObject.SECURE_DFU_CONTROL_POINT_UUID)])].

(** A device whose DFU service lacks the packet characteristic. *)
Definition deviceWithoutPacket : list (string * GattService.t) :=
  [("service.2",
    GattService.make DfuObject.SECURE_DFU_SERVICE_UUID
      [("characteristic.3",
        GattCharacteristic.make DfuObject.SECURE_DFU_CONTROL_POINT_UUID)])].

(** An adapter that answers with the services [services] and starts and
    stops notifications without error. *)
Definition adapterOf (services : list (string * GattService.t))
    : DfuObject.Adapter :=
  {| DfuObject.getAttributes := fun _ _ => inr services;
     DfuObject.startCharacteristicsNotifications := fun _ _ _ => None;
     DfuObject.stopCharacteristicsNotifications := fun _ _ => None |}.

(** The first of the four slots that a manifest has. *)
Definition firstSlot (manifest : list (string * Json.t)) : option string :=
  head (List.filter (fun type => Json.truthy (Json.lookup type manifest))
          Dfu.updateTypes).

(** An archive that holds the files of a softdevice and of an application,
    and its manifest, which names the application first. *)
Definition fullArchive : Dfu.ZipObject :=
  {[ "manifest.json" := inr "manifest";
     "app.dat" := inr "init packet of the application";
     "app.bin" := inr "application";
     "sd.dat" := inr "init packet of the softdevice";
     "sd.bin" := inr "softdevice" ]}.

Definition fullManifest : list (string * Json.t) :=
  [("application", slot "app.dat" "app.bin");
   ("softdevice", slot "sd.dat" "sd.bin")].

(** A platform on which no file can be read. *)
Definition unreadable (error : DfuConstants.JsError) : Dfu.Platform :=
  {| Dfu.fs_readFile := fun _ => inl error;
     Dfu.JSZip_loadAsync := fun _ => inr archive;
     Dfu.JSON_parse := fun _ => inr Json.Null |}.


(** * Properties *)

(** ** Slices *)

Lemma slice_range {A} (l : list A) (a b : Z) :
  0 <= a -> 0 <= b -> Js.slice l a b = range l a b.
Proof.
  intros Ha Hb. unfold Js.slice, range, Js.relativeIndex.
  destruct (Z.ltb_spec a 0); [lia|]. destruct (Z.ltb_spec b 0); [lia|].
  destruct (Z_le_gt_dec a (Z.of_nat (length l))) as [Hal|Hal].
  - rewrite (Z.min_l a) by lia.
    rewrite <- (take_ge (drop (Z.to_nat a) l) (Z.to_nat (Z.of_nat (length l) - a))) at 2
      by (rewrite length_drop; lia).
    rewrite take_take. f_equal. lia.
  - rewrite (Z.min_r a) by lia.
    rewrite !drop_ge by lia. by rewrite !take_nil.
Qed.

Lemma sliceFrom_drop {A} (l : list A) (a : Z) :
  0 <= a -> Js.sliceFrom l a = drop (Z.to_nat a) l.
Proof.
  intros Ha. unfold Js.sliceFrom, Js.relativeIndex.
  destruct (Z.ltb_spec a 0); [lia|].
  destruct (Z_le_gt_dec a (Z.of_nat (length l))) as [Hal|Hal].
  - rewrite Z.min_l by lia. apply take_ge. rewrite length_drop. lia.
  - rewrite Z.min_r by lia. rewrite !drop_ge by lia. by rewrite take_nil.
Qed.

Lemma length_range {A} (l : list A) (a b : Z) :
  0 <= a -> Js.length (range l a b) = Z.max 0 (Z.min b (Js.length l) - a).
Proof.
  intros Ha. unfold range, Js.length. rewrite length_take, length_drop. lia.
Qed.

Lemma rem_nonneg (offset maximumSize : Z) :
  0 <= offset -> 0 < maximumSize ->
  Js.rem offset maximumSize = Some (offset mod maximumSize).
Proof.
  intros Ho Hm. unfold Js.rem.
  destruct (Z.eqb_spec maximumSize 0); [lia|].
  by rewrite Z.rem_mod_nonneg by lia.
Qed.

(** ** The remaining partial object *)

Section PartialObject.
Import DfuTransport.

(** C7. For every firmware, maximum object size and acknowledged offset (both
    numbers not negative, as the target sends them), the remaining partial
    object is [firmware[offset .. offset + max_size - offset mod max_size]]
    when the offset is neither 0 nor the length of the firmware and
    [offset mod max_size] is not 0, and it is empty otherwise.  For a maximum
    size of 0 both sides are empty. *)
Theorem getRemainingPartialObject_spec (firmware : list byte)
    (max_size offset : Z) :
  0 <= offset -> 0 <= max_size ->
  _getRemainingPartialObject firmware max_size offset
  = remainingPartialObject_spec firmware max_size offset.
Proof.
  intros Ho Hm. unfold _getRemainingPartialObject, remainingPartialObject_spec.
  destruct (Z.eqb_spec offset 0) as [->|Hne0]; cbn [orb].
  { destruct (decide _); [lia | done]. }
  destruct (Z.eqb_spec offset (Js.length firmware)) as [Hlen|Hlen].
  { rewrite orb_true_r. destruct (decide _); [lia | done]. }
  rewrite orb_false_r.
  destruct (Z.eq_dec max_size 0) as [->|Hm0].
  - unfold Js.rem. cbn [Z.eqb bool_decide]. rewrite Z.mod_0_r.
    rewrite bool_decide_eq_false_2 by discriminate.
    rewrite decide_True by lia.
    rewrite slice_range by lia. unfold range.
    replace (Z.to_nat (offset + 0 - offset - offset)) with 0%nat by lia.
    replace (Z.to_nat (0 - offset)) with 0%nat by lia. done.
  - rewrite rem_nonneg by lia.
    pose proof (Z.mod_pos_bound offset max_size ltac:(lia)) as Hb.
    case_bool_decide as Hr.
    + injection Hr as Hr. rewrite decide_False by lia. done.
    + rewrite decide_True by (repeat split; try lia; congruence).
      apply slice_range; lia.
Qed.

Lemma getRemainingPartialObject_spec_witness :
  _getRemainingPartialObject [x01; x02; x03; x04; x05]%byte 2 3
  = remainingPartialObject_spec [x01; x02; x03; x04; x05]%byte 2 3
  /\ _getRemainingPartialObject [x01; x02; x03; x04; x05]%byte 2 3 = [x04]%byte.
Proof.
  split; [apply getRemainingPartialObject_spec; lia | reflexivity].
Defined.

End PartialObject.

(** ** The firmware state *)

Section FirmwareState.
Import DfuTransport.

(** The state after a rollback, field by field. *)
Lemma getFirmwareState_rolled_back (firmware : list byte)
    (r : SelectResponse.t) :
  let partial :=
    _getRemainingPartialObject firmware (SelectResponse.maximumSize r)
      (SelectResponse.offset r) in
  let startOffset :=
    SelectResponse.offset r - SelectResponse.maximumSize r + Js.length partial in
  partial <> [] ->
  SelectResponse.crc32 r
    <> Crc.crc32 (Js.slice firmware 0 (SelectResponse.offset r)) ->
  _getFirmwareState firmware r
  = {| FirmwareState.offset := startOffset;
       FirmwareState.crc32 := Crc.crc32 (Js.slice firmware 0 startOffset);
       FirmwareState.objects :=
         ArrayUtil.splitArray (Js.sliceFrom firmware startOffset)
           (SelectResponse.maximumSize r);
       FirmwareState.partialObject := [] |}.
Proof.
  intros partial startOffset Hne Hcrc. unfold _getFirmwareState. fold partial.
  assert ((Js.length partial >? 0) = true) as ->.
  { apply Z.gtb_lt. destruct partial; [done|]. unfold Js.length. cbn [length]. lia. }
  assert (_canResumePartiallyWrittenObject firmware (SelectResponse.offset r)
            (SelectResponse.crc32 r) = false) as ->.
  { unfold _canResumePartiallyWrittenObject.
    destruct (Z.eqb_spec (SelectResponse.crc32 r)
                (Crc.crc32 (Js.slice firmware 0 (SelectResponse.offset r))));
      [done|]. by rewrite orb_true_r. }
  cbn [andb negb]. fold startOffset.
  change (Js.length (@nil byte)) with 0. by rewrite Z.add_0_r.
Qed.

(** X1. The rollback of [_getFirmwareState]: when the partial object is not
    empty and the checksum of the target is not that of the firmware up to
    the offset, the state starts at [offset - maximumSize +
    partialObject.length], with the checksum of the firmware up to there
    (as [slice] reads that index) and no partial object; the objects are
    the chunks of the firmware from there on. *)
Lemma getFirmwareState_rollback (firmware : list byte) (r : SelectResponse.t) :
  let partial :=
    _getRemainingPartialObject firmware (SelectResponse.maximumSize r)
      (SelectResponse.offset r) in
  partial <> [] ->
  SelectResponse.crc32 r
    <> Crc.crc32 (Js.slice firmware 0 (SelectResponse.offset r)) ->
  let state := _getFirmwareState firmware r in
  FirmwareState.offset state
    = SelectResponse.offset r - SelectResponse.maximumSize r + Js.length partial
  /\ FirmwareState.crc32 state
    = Crc.crc32 (Js.slice firmware 0 (FirmwareState.offset state))
  /\ FirmwareState.partialObject state = []
  /\ FirmwareState.objects state
    = ArrayUtil.splitArray
        (Js.sliceFrom firmware (FirmwareState.offset state))
        (SelectResponse.maximumSize r).
Proof.
  intros partial Hne Hcrc state. subst state.
  by rewrite (getFirmwareState_rolled_back firmware r Hne Hcrc).
Qed.

Lemma getFirmwareState_rollback_witness :
  let firmware := [x01; x02; x03; x04; x05; x06; x07]%byte in
  let state := _getFirmwareState firmware (SelectResponse.make 4 5 0) in
  FirmwareState.offset state = 5 - 4 + 2
  /\ FirmwareState.partialObject state = [].
Proof.
  pose proof (getFirmwareState_rollback
                [x01; x02; x03; x04; x05; x06; x07]%byte
                (SelectResponse.make 4 5 0)) as H.
  cbv zeta in H. destruct H as (H1 & _ & H3 & _).
  - vm_compute. discriminate.
  - vm_compute. discriminate.
  - split; [exact H1 | exact H3].
Defined.

(** X2. When the partial object is not cut short by the end of the
    firmware, the rollback lands on the start of the current object,
    [offset - offset mod maximumSize]. *)
Lemma getFirmwareState_rollback_boundary (firmware : list byte)
    (r : SelectResponse.t) :
  let maximumSize := SelectResponse.maximumSize r in
  let offset := SelectResponse.offset r in
  0 < maximumSize -> 0 < offset -> offset mod maximumSize <> 0 ->
  offset + maximumSize - offset mod maximumSize <= Js.length firmware ->
  SelectResponse.crc32 r <> Crc.crc32 (Js.slice firmware 0 offset) ->
  FirmwareState.offset (_getFirmwareState firmware r)
  = offset - offset mod maximumSize.
Proof.
  intros maximumSize offset Hm Ho Hr Hlen Hcrc.
  pose proof (Z.mod_pos_bound offset maximumSize Hm) as Hb.
  assert (_getRemainingPartialObject firmware maximumSize offset
          = range firmware offset (offset + maximumSize - offset mod maximumSize))
    as Hpartial.
  { unfold _getRemainingPartialObject. rewrite rem_nonneg by lia.
    destruct (Z.eqb_spec offset 0); [lia|].
    destruct (Z.eqb_spec offset (Js.length firmware)); [lia|].
    rewrite bool_decide_eq_false_2 by congruence.
    cbn [orb]. apply slice_range; lia. }
  rewrite getFirmwareState_rolled_back; [|fold maximumSize offset..].
  - cbn [FirmwareState.offset]. fold maximumSize offset. rewrite Hpartial.
    rewrite length_range by lia. lia.
  - rewrite Hpartial. intros Hnil.
    apply (f_equal Js.length) in Hnil. rewrite length_range in Hnil by lia.
    change (Js.length (@nil byte)) with 0 in Hnil. lia.
  - done.
Qed.

Lemma getFirmwareState_rollback_boundary_witness :
  FirmwareState.offset
    (_getFirmwareState (payload 500) (SelectResponse.make 200 250 0))
  = 250 - 250 mod 200.
Proof.
  apply (getFirmwareState_rollback_boundary (payload 500)
           (SelectResponse.make 200 250 0)).
  - reflexivity.
  - reflexivity.
  - vm_compute. discriminate.
  - vm_compute. discriminate.
  - vm_compute. discriminate.
Defined.

(** C1, at a firmware whose last object is shorter than the maximum size.
    Firmware of 500 bytes, [SELECT] answers (200, 450, 0); the checksum of
    the first 450 bytes is not 0.  The partial object is [firmware[450..500]],
    50 bytes.  The state is rolled back to offset [450 - 200 + 50 = 300]:
    the start of the current object is 400, and the one object left to
    create, [firmware[300..500]], spans the boundary. *)
Theorem getFirmwareState_rollback_short_last_object :
  let firmware := payload 500 in
  let state := _getFirmwareState firmware (SelectResponse.make 200 450 0) in
  _getRemainingPartialObject firmware 200 450 = range firmware 450 500
  /\ Crc.crc32 (range firmware 0 450) <> 0
  /\ FirmwareState.offset state = 300
  /\ FirmwareState.offset state <> 450 - 450 mod 200
  /\ FirmwareState.crc32 state = Crc.crc32 (range firmware 0 300)
  /\ FirmwareState.partialObject state = []
  /\ FirmwareState.objects state = [range firmware 300 500].
Proof.
  cbv zeta. repeat split; try (vm_compute; reflexivity); vm_compute; discriminate.
Qed.

(** The same defect at a firmware shorter than one object.  Firmware of 150
    bytes, [SELECT] answers (200, 50, 0): the state starts at offset -50, and
    the one object left to create is [firmware[100..150]]. *)
Lemma getFirmwareState_rollback_small_firmware :
  let firmware := payload 150 in
  let state := _getFirmwareState firmware (SelectResponse.make 200 50 0) in
  Crc.crc32 (range firmware 0 50) <> 0
  /\ FirmwareState.offset state = -50
  /\ FirmwareState.crc32 state = Crc.crc32 (range firmware 0 100)
  /\ FirmwareState.partialObject state = []
  /\ FirmwareState.objects state = [range firmware 100 150].
Proof.
  cbv zeta. repeat split; try (vm_compute; reflexivity); vm_compute; discriminate.
Qed.

End FirmwareState.

(** ** Promises: the log only grows *)

Section Log.
Import DfuConstants Promise.

Lemma append_nil (s : State) : append [] s = s.
Proof. destruct s. unfold append. cbn. by rewrite app_nil_r. Qed.

Lemma append_append (a b : list Event) (s : State) :
  append b (append a s) = append (a ++ b) s.
Proof. unfold append. cbn. by rewrite app_assoc. Qed.

Lemma log_append (a : list Event) (s : State) : log (append a s) = log s ++ a.
Proof. done. Qed.

Lemma isOpen_append (a : list Event) (s : State) :
  _isOpen (append a s) = _isOpen s.
Proof. done. Qed.

Lemma added_append (a : list Event) (s : State) : added s (append a s) = a.
Proof. unfold added. rewrite log_append. by rewrite drop_app_length. Qed.

Lemma adding_bind {A B} (P : Event -> bool) (c : M A) (f : A -> M B) :
  adding P c -> (forall a, adding P (f a)) -> adding P (bind c f).
Proof.
  intros Hc Hf w s. unfold bind. destruct (Hc w s) as (e1 & He1 & HP1).
  destruct (c w s) as [s1 [a|e|]]; cbn in He1; subst s1.
  - destruct (Hf a w (append e1 s)) as (e2 & He2 & HP2). exists (e1 ++ e2).
    by rewrite He2, append_append, forallb_app, HP1, HP2.
  - by exists e1.
  - by exists e1.
Qed.

Lemma adding_weaken {A} (P Q : Event -> bool) (c : M A) :
  (forall ev, P ev = true -> Q ev = true) -> adding P c -> adding Q c.
Proof.
  intros HPQ Hc w s. destruct (Hc w s) as (events & Hs & HP).
  exists events. split; [done|].
  apply forallb_forall. intros ev Hin. apply HPQ.
  by apply (proj1 (forallb_forall P events) HP).
Qed.

Lemma adding_resolve {A} (P : Event -> bool) (a : A) : adding P (resolve a).
Proof. intros w s. exists []. by rewrite append_nil. Qed.

Lemma adding_reject {A} (P : Event -> bool) (e : JsError) :
  adding P (@reject A e).
Proof. intros w s. exists []. by rewrite append_nil. Qed.

(** A step that logs one event, whatever it answers. *)
Lemma adding_one {A} (P : Event -> bool) (c : M A) (ev : World -> State -> Event) :
  (forall w s, fst (c w s) = append [ev w s] s) ->
  (forall w s, P (ev w s) = true) ->
  adding P c.
Proof.
  intros Hc HP w s. exists [ev w s]. split; [done|].
  cbn [forallb]. by rewrite HP.
Qed.

Lemma adding_isOpen {A} (P : Event -> bool) (c : M A) (w : World) (s : State) :
  adding P c -> _isOpen (fst (c w s)) = _isOpen s.
Proof. intros Hc. by destruct (Hc w s) as (events & -> & _). Qed.

End Log.

(** ** The write-object procedure *)

Section WriteObject.
Import DfuConstants Promise DfuTransport.

(** The write-object procedure step by step: what is logged, and how it
    ends, by what the collaborators answer. *)
Lemma writeObject_run (data : list byte) (type : ObjectType)
    (offset crc32 : option Z) (w : World) (s : State) :
  _writeObject data type offset crc32 w s
  = let written := objectWriter_writeObject w (log s) data type offset crc32 in
    let s1 := append [WriteObject data type offset crc32 written] s in
    match written with
    | inl error => (s1, Rejected error)
    | inr progress =>
        let checked := controlPointService_calculateChecksum w (log s1) in
        let s2 := append [CalculateChecksum checked] s1 in
        match checked with
        | inl error => (s2, Rejected error)
        | inr response =>
            if negb (Progress.offset progress =? Progress.offset response)
            then
              (s2, Rejected (DfuError INVALID_OFFSET
                 ("Error when validating offset. Got "
                  +:+ pretty (Progress.offset response) +:+ ", but expected "
                  +:+ pretty (Progress.offset progress) +:+ ".")))
            else if negb (Progress.crc32 progress =? Progress.crc32 response)
            then
              (s2, Rejected (DfuError INVALID_CRC
                 ("Error when validating CRC. Got "
                  +:+ pretty (Progress.crc32 response) +:+ ", but expected "
                  +:+ pretty (Progress.crc32 progress) +:+ ".")))
            else
              let error := controlPointService_execute w (log s2) in
              (append [Execute error] s2,
               match error with
               | None => Resolved progress
               | Some error => Rejected error
               end)
        end
    end.
Proof.
  cbv zeta. unfold _writeObject, bind at 1. unfold writeObject, ask, record.
  destruct (objectWriter_writeObject _ _ _ _ _ _) as [e|progress]; [done|].
  unfold bind at 1. unfold _validateProgress, bind at 1.
  unfold calculateChecksum, ask, record.
  destruct (controlPointService_calculateChecksum _ _) as [e|response]; [done|].
  destruct (negb (Progress.offset progress =? Progress.offset response)); [done|].
  destruct (negb (Progress.crc32 progress =? Progress.crc32 response)); [done|].
  unfold resolve, bind, execute, tell, record.
  by destruct (controlPointService_execute _ _).
Qed.

(** C5. The write-object procedure, from any state [s] and against any
    collaborators [w].  When the object writer fails, so does the procedure,
    and nothing more is issued.  When the writer returns [progress],
    [CALCULATE_CRC] is issued next.  If its response has another offset the
    procedure fails with [INVALID_OFFSET]; if the offset is that of
    [progress] and the checksum is another, it fails with [INVALID_CRC]; in
    both cases, and when [CALCULATE_CRC] itself fails, the log ends there,
    with no [EXECUTE].  If offset and checksum are those of [progress],
    [EXECUTE] is issued next, and when it succeeds the procedure returns
    [progress]. *)
Theorem writeObject_validates_then_executes (data : list byte)
    (type : ObjectType) (offset crc32 : option Z) (w : World) (s : State) :
  let written := objectWriter_writeObject w (log s) data type offset crc32 in
  let s1 := append [WriteObject data type offset crc32 written] s in
  let checked := controlPointService_calculateChecksum w (log s1) in
  let s2 := append [CalculateChecksum checked] s1 in
  let run := _writeObject data type offset crc32 w s in
  (forall error, written = inl error -> run = (s1, Rejected error))
  /\ (forall progress, written = inr progress ->
      (forall error, checked = inl error -> run = (s2, Rejected error))
      /\ (forall response, checked = inr response ->
          (Progress.offset response <> Progress.offset progress ->
           exists message,
             run = (s2, Rejected (DfuError INVALID_OFFSET message)))
          /\ (Progress.offset response = Progress.offset progress ->
              Progress.crc32 response <> Progress.crc32 progress ->
              exists message,
                run = (s2, Rejected (DfuError INVALID_CRC message)))
          /\ (Progress.offset response = Progress.offset progress ->
              Progress.crc32 response = Progress.crc32 progress ->
              let error := controlPointService_execute w (log s2) in
              run = (append [Execute error] s2,
                     match error with
                     | None => Resolved progress
                     | Some error => Rejected error
                     end))))
  /\ (forall error, In (Execute error) (added s (fst run)) ->
      exists progress, written = inr progress /\ checked = inr progress).
Proof.
  cbv zeta. rewrite writeObject_run. cbv zeta.
  destruct (objectWriter_writeObject w (log s) data type offset crc32)
    as [e|progress] eqn:Hw.
  { split; [by intros ? [= ->]|]. split; [done|].
    intros error Hin. cbn [fst] in Hin. rewrite added_append in Hin.
    cbn [In] in Hin. intuition discriminate. }
  split; [done|].
  set (s1 := append [WriteObject data type offset crc32 (inr progress)] s).
  destruct (controlPointService_calculateChecksum w (log s1))
    as [e|response] eqn:Hc.
  { split.
    - intros ? [= <-]. split; [by intros ? [= ->]|done].
    - intros error Hin. cbn [fst] in Hin. subst s1.
      rewrite append_append, added_append in Hin.
      cbn [In app] in Hin. intuition discriminate. }
  destruct (Z.eqb_spec (Progress.offset progress) (Progress.offset response))
    as [Ho|Ho]; cbn [negb].
  2:{ split.
      - intros ? [= <-]. split; [done|]. intros ? [= <-].
        split; [eauto|]. split; intros; congruence.
      - intros error Hin. cbn [fst] in Hin. subst s1.
        rewrite append_append, added_append in Hin.
        cbn [In app] in Hin. intuition discriminate. }
  destruct (Z.eqb_spec (Progress.crc32 progress) (Progress.crc32 response))
    as [Hcrc|Hcrc]; cbn [negb].
  2:{ split.
      - intros ? [= <-]. split; [done|]. intros ? [= <-].
        split; [intros; congruence|]. split; [eauto | intros; congruence].
      - intros error Hin. cbn [fst] in Hin. subst s1.
        rewrite append_append, added_append in Hin.
        cbn [In app] in Hin. intuition discriminate. }
  split.
  - intros ? [= <-]. split; [done|]. intros ? [= <-].
    split; [intros; congruence|]. split; [intros; congruence | done].
  - intros _ _. exists progress. split; [done|].
    destruct progress, response. cbn in Ho, Hcrc. by subst.
Qed.

End WriteObject.

(** ** Create-and-write with retry *)

Section Retry.
Import DfuConstants Promise DfuTransport.

Lemma shouldRetry_iff (attempts : Z) (error : JsError) :
  _shouldRetry attempts error = true
  <-> attempts < MAX_RETRIES
      /\ code error <> Some ABORTED
      /\ code error <> Some NOTIFICATION_TIMEOUT.
Proof.
  unfold _shouldRetry.
  destruct (Z.ltb_spec attempts MAX_RETRIES);
    repeat case_bool_decide; cbn; intuition (try lia; try done).
Qed.

Lemma tryWrite_unfold (fuel : nat) (attempts : Z) (data : list byte)
    (type : ObjectType) (offset crc32 : option Z) (w : World) (s : State) :
  tryWrite fuel attempts data type offset crc32 w s
  = match attempt data type offset crc32 w s with
    | (s', Resolved progress) => (s', Resolved progress)
    | (s', Rejected error) =>
        if _shouldRetry (attempts + 1) error then
          match fuel with
          | S fuel => tryWrite fuel (attempts + 1) data type offset crc32 w s'
          | O => (s', Unfinished)
          end
        else (s', Rejected error)
    | (s', Unfinished) => (s', Unfinished)
    end.
Proof. by destruct fuel. Qed.

(** One attempt, step by step. *)
Lemma attempt_run (data : list byte) (type : ObjectType)
    (offset crc32 : option Z) (w : World) (s : State) :
  attempt data type offset crc32 w s
  = let error :=
      controlPointService_createObject w (log s) type (Js.length data) in
    let s1 := append [CreateObject type (Js.length data) error] s in
    match error with
    | Some error => (s1, Rejected error)
    | None => _writeObject data type offset crc32 w s1
    end.
Proof.
  unfold attempt, bind at 1. unfold createObject, tell, record. cbv zeta.
  by destruct (controlPointService_createObject _ _ _ _).
Qed.





(** C4. When an attempt ([CREATE], then the write-object procedure) of
    [_createAndWriteObject] fails with [error] after [attempts] earlier
    failures, the counter becomes [attempts + 1], and the whole attempt is
    made again, from the state that the failed one left, if and only if
    [attempts + 1 < 3] and the code of the error is neither [ABORTED] nor
    [NOTIFICATION_TIMEOUT]; otherwise the promise is rejected with
    [error]. *)
Theorem createAndWriteObject_retry (data : list byte) (type : ObjectType)
    (offset crc32 : option Z) (w : World) (s s' : State) (error : JsError)
    (fuel : nat) (attempts : Z) :
  attempt data type offset crc32 w s = (s', Rejected error) ->
  let retry :=
    attempts + 1 < MAX_RETRIES
    /\ code error <> Some ABORTED
    /\ code error <> Some NOTIFICATION_TIMEOUT in
  (retry ->
   tryWrite (S fuel) attempts data type offset crc32 w s
   = tryWrite fuel (attempts + 1) data type offset crc32 w s')
  /\ (~ retry ->
      tryWrite (S fuel) attempts data type offset crc32 w s
      = (s', Rejected error)).
Proof.
  intros Hattempt retry. rewrite tryWrite_unfold, Hattempt.
  destruct (_shouldRetry (attempts + 1) error) eqn:Hretry.
  - apply shouldRetry_iff in Hretry. split; [done|]. by intros [].
  - split; [|done]. intros Hyes. apply shouldRetry_iff in Hyes. congruence.
Qed.

Lemma createAndWriteObject_retry_witness :
  let data := [x01; x02]%byte in
  let error := DfuError OPERATION_FAILED "Operation failed" in
  let w := refusing error (SelectResponse.make 256 0 0) in
  let s' := append [CreateObject COMMAND 2 (Some error)] fresh in
  _createAndWriteObject data COMMAND None None w fresh
  = tryWrite 2 1 data COMMAND None None w s'.
Proof.
  cbv zeta.
  apply (proj1 (createAndWriteObject_retry [x01; x02]%byte COMMAND None None
                  (refusing (DfuError OPERATION_FAILED "Operation failed")
                     (SelectResponse.make 256 0 0))
                  fresh _ (DfuError OPERATION_FAILED "Operation failed")
                  2 0 eq_refl)).
  split; [reflexivity | split; cbn; discriminate].
Defined.

(** When an attempt succeeds there is no other. *)
Lemma tryWrite_resolved (fuel : nat) (attempts : Z) (data : list byte)
    (type : ObjectType) (offset crc32 : option Z) (w : World) (s s' : State)
    (progress : Progress.t) :
  attempt data type offset crc32 w s = (s', Resolved progress) ->
  tryWrite fuel attempts data type offset crc32 w s = (s', Resolved progress).
Proof. intros H. by rewrite tryWrite_unfold, H. Qed.

End Retry.

(** ** Objects and their [EXECUTE] commands *)

Section Objects.
Import DfuConstants Promise DfuTransport.

Lemma count_app (kind : Event -> bool) (a b : list Event) :
  count kind (a ++ b) = (count kind a + count kind b)%nat.
Proof. unfold count. by rewrite List.filter_app, length_app. Qed.

Lemma adds_added {A} (run : State * Outcome A) (s : State)
    (P : list Event -> Outcome A -> Prop) :
  adds run s P -> P (added s (fst run)) (snd run).
Proof. intros (events & -> & HP). by rewrite added_append. Qed.

Lemma writeObject_profile (data : list byte) (type : ObjectType)
    (offset crc32 : option Z) (w : World) (s : State) :
  adds (_writeObject data type offset crc32 w s) s writeProfile.
Proof.
  unfold adds. rewrite writeObject_run. cbv zeta.
  repeat match goal with
         | |- context [match ?x with _ => _ end] => destruct x
         | |- context [if ?x then _ else _] => destruct x
         end;
    cbn [fst snd]; rewrite ?append_append; cbn [app];
    (eexists; split; [reflexivity|]);
    unfold writeProfile, executes, executed, creates, count; cbn; lia.
Qed.

Lemma attempt_profile (data : list byte) (type : ObjectType)
    (offset crc32 : option Z) (w : World) (s : State) :
  adds (attempt data type offset crc32 w s) s attemptProfile.
Proof.
  rewrite attempt_run. cbv zeta.
  destruct (controlPointService_createObject w (log s) type (Js.length data))
    as [error|].
  - eexists. split; [reflexivity|].
    unfold attemptProfile, executes, executed, creates, count; cbn; lia.
  - destruct (writeObject_profile data type offset crc32 w
                (append [CreateObject type (Js.length data) None] s))
      as (events & Hs & Hall & Hc & Ho).
    exists (CreateObject type (Js.length data) None :: events).
    split; [by rewrite Hs, append_append|].
    unfold attemptProfile, executes, executed, creates in *.
    change (CreateObject type (Js.length data) None :: events)
      with ([CreateObject type (Js.length data) None] ++ events).
    rewrite forallb_app, !count_app, Hall, Hc.
    split; [done|]. split; [done|].
    destruct (snd (_writeObject _ _ _ _ _ _)); cbn; [lia..|done].
Qed.

Lemma tryWrite_profile (fuel : nat) (attempts : Z) (data : list byte)
    (type : ObjectType) (offset crc32 : option Z) (w : World) (s : State) :
  0 <= attempts ->
  MAX_RETRIES - 1 - attempts <= Z.of_nat fuel ->
  adds (tryWrite fuel attempts data type offset crc32 w s) s
    (objectProfile (Z.to_nat (Z.max 1 (MAX_RETRIES - attempts)))).
Proof.
  revert attempts s.
  induction fuel as [|fuel IH]; intros attempts s Hattempts Hfuel;
    rewrite tryWrite_unfold;
    destruct (attempt_profile data type offset crc32 w s)
      as (events & Hs & Hall & Hc & Ho);
    destruct (attempt data type offset crc32 w s) as [s' [progress|error|]];
    cbn [fst snd] in *; subst s'; try done.
  - exists events. split; [done|].
    unfold objectProfile; cbn [fst snd]. rewrite Hc. unfold MAX_RETRIES in *.
    repeat split; [done|lia..].
  - destruct (_shouldRetry (attempts + 1) error) eqn:Hretry.
    { apply shouldRetry_iff in Hretry. lia. }
    exists events. split; [done|].
    unfold objectProfile; cbn [fst snd]. rewrite Hc. unfold MAX_RETRIES in *.
    repeat split; [done|lia..].
  - exists events. split; [done|].
    unfold objectProfile; cbn [fst snd]. rewrite Hc. unfold MAX_RETRIES in *.
    repeat split; [done|lia..].
  - destruct (_shouldRetry (attempts + 1) error) eqn:Hretry.
    + apply shouldRetry_iff in Hretry.
      destruct (IH (attempts + 1) (append events s))
        as (more & Hs' & Hall' & Hc' & He' & Ho'); [lia..|].
      exists (events ++ more). split; [by rewrite Hs', append_append|].
      unfold objectProfile, executes, executed, creates in *.
      cbn [fst snd] in *.
      rewrite forallb_app, !count_app, Hall, Hall'.
      unfold MAX_RETRIES in *.
      split; [done|]. split; [lia|]. split; [lia|].
      destruct (snd (tryWrite _ _ _ _ _ _ _ _)); [lia..|done].
    + exists events. split; [done|].
      unfold objectProfile; cbn [fst snd]. rewrite Hc. unfold MAX_RETRIES in *.
      repeat split; [done|lia..].
Qed.

Lemma createAndWriteObject_profile (data : list byte) (type : ObjectType)
    (offset crc32 : option Z) (w : World) (s : State) :
  adds (_createAndWriteObject data type offset crc32 w s) s (objectProfile 3).
Proof.
  apply (tryWrite_profile (Z.to_nat MAX_RETRIES) 0); unfold MAX_RETRIES; lia.
Qed.

End Objects.

(** ** Sending firmware *)

Section SendFirmware.
Import DfuConstants Promise DfuTransport.

Lemma bind_assoc {A B C} (c : M A) (f : A -> M B) (g : B -> M C) (w : World)
    (s : State) :
  bind (bind c f) g w s = bind c (fun a => bind (f a) g) w s.
Proof. unfold bind. by destruct (c w s) as [s' [a|e|]]. Qed.

Lemma bind_resolve {A} (c : M A) (w : World) (s : State) :
  bind c resolve w s = c w s.
Proof. unfold bind, resolve. by destruct (c w s) as [s' [a|e|]]. Qed.

Lemma bind_ext {A B} (c : M A) (f g : A -> M B) (w : World) (s : State) :
  (forall a w s, f a w s = g a w s) -> bind c f w s = bind c g w s.
Proof. intros H. unfold bind. by destruct (c w s) as [s' [a|e|]]. Qed.

(** The fold of [_createAndWriteObjects] is the chain object by object. *)
Lemma fold_writeEach (objects : list (list byte)) (type : ObjectType)
    (init : M Progress.t) (w : World) (s : State) :
  fold_left
    (fun prevPromise object =>
       bind prevPromise (fun progress =>
         _createAndWriteObject object type
           (Some (Progress.offset progress)) (Some (Progress.crc32 progress))))
    objects init w s
  = bind init (writeEach objects type) w s.
Proof.
  revert init w s. induction objects as [|object objects IH]; intros init w s.
  - cbn. symmetry. apply bind_resolve.
  - cbn [fold_left writeEach]. rewrite IH. apply bind_assoc.
Qed.

Lemma createAndWriteObjects_each (objects : list (list byte))
    (type : ObjectType) (offset crc32 : Z) (w : World) (s : State) :
  _createAndWriteObjects objects type offset crc32 w s
  = writeEach objects type (Progress.make offset crc32) w s.
Proof. unfold _createAndWriteObjects. by rewrite fold_writeEach. Qed.

Lemma writeEach_profile (objects : list (list byte)) (type : ObjectType)
    (progress : Progress.t) (w : World) (s : State) :
  adds (writeEach objects type progress w s) s (chainProfile (length objects)).
Proof.
  revert progress s. induction objects as [|object objects IH];
    intros progress s; cbn [writeEach].
  - exists []. split; [by rewrite append_nil|]. by cbn.
  - unfold bind.
    destruct (createAndWriteObject_profile object type
                (Some (Progress.offset progress))
                (Some (Progress.crc32 progress)) w s)
      as (events & Hs & Hall & Hc & He & Ho).
    destruct (_createAndWriteObject _ _ _ _ _ _) as [s' [p|e|]];
      cbn [fst snd] in *; subst s'; [| |done].
    + destruct (IH p (append events s)) as (more & Hs' & Hall' & Ho').
      exists (events ++ more). split; [by rewrite Hs', append_append|].
      unfold chainProfile, executes, executed in *.
      rewrite forallb_app, !count_app, Hall, Hall'. split; [done|].
      destruct (snd (writeEach _ _ _ _ _)); cbn [length]; [lia|done|done].
    + exists events. split; [done|]. by split.
Qed.

(** The chunks of [splitArray] are as many as the objects of the payload. *)
Lemma length_chunks {A} (fuel chunkSize : nat) (data : list A) :
  (1 <= chunkSize)%nat -> (length data <= fuel)%nat ->
  length (ArrayUtil.chunks fuel chunkSize data)
  = objectCount (Js.length data) (Z.of_nat chunkSize).
Proof.
  intros Hc. revert data. induction fuel as [|fuel IH]; intros data Hfuel.
  - destruct data; [|cbn in Hfuel; lia]. cbn.
    unfold objectCount, Js.length. cbn [length].
    rewrite Z.div_small by lia. done.
  - destruct data as [|x data].
    { cbn. unfold objectCount, Js.length. cbn [length].
      rewrite Z.div_small by lia. done. }
    cbn [ArrayUtil.chunks length]. rewrite IH
      by (rewrite length_drop; cbn [length] in *; lia).
    unfold objectCount, Js.length. rewrite length_drop.
    set (L := length (x :: data)). assert (1 <= L)%nat by (subst L; cbn; lia).
    set (M := Z.of_nat chunkSize). assert (1 <= M) by lia.
    destruct (le_lt_dec chunkSize L) as [Hle|Hlt].
    + replace (Z.of_nat L + M - 1) with (Z.of_nat (L - chunkSize) + M - 1 + 1 * M)
        by lia.
      rewrite Z.div_add by lia.
      assert (0 <= (Z.of_nat (L - chunkSize) + M - 1) / M)
        by (apply Z.div_pos; lia).
      lia.
    + replace (L - chunkSize)%nat with 0%nat by lia.
      rewrite (Z.div_small (Z.of_nat 0 + M - 1)) by lia.
      replace (Z.of_nat L + M - 1) with (Z.of_nat L - 1 + 1 * M) by lia.
      rewrite Z.div_add by lia. rewrite Z.div_small by lia. done.
Qed.

Lemma length_splitArray {A} (data : list A) (chunkSize : Z) :
  0 < chunkSize ->
  length (ArrayUtil.splitArray data chunkSize)
  = objectCount (Js.length data) chunkSize.
Proof.
  intros Hc. unfold ArrayUtil.splitArray.
  destruct (Z.ltb_spec chunkSize 1); [lia|].
  rewrite length_chunks by lia. by rewrite Z2Nat.id by lia.
Qed.

(** On a target that has nothing of the firmware, all of it is split into
    objects. *)
Lemma getFirmwareState_fresh (firmware : list byte) (r : SelectResponse.t) :
  SelectResponse.offset r = 0 ->
  _getFirmwareState firmware r
  = {| FirmwareState.offset := 0;
       FirmwareState.crc32 := SelectResponse.crc32 r;
       FirmwareState.objects :=
         ArrayUtil.splitArray firmware (SelectResponse.maximumSize r);
       FirmwareState.partialObject := [] |}.
Proof.
  intros Ho. unfold _getFirmwareState, _getRemainingPartialObject.
  rewrite Ho. cbn [Z.eqb orb].
  change (Js.length (@nil byte) >? 0) with false. cbn [andb].
  change (0 + Js.length (@nil byte)) with 0.
  rewrite sliceFrom_drop by done. done.
Qed.

Lemma sendFirmware_run (firmware : list byte) (w : World) (s : State) :
  sendFirmware firmware w s
  = let s1 := append [ProgressUpdate "Initializing firmware" 0] s in
    match _open w s1 with
    | (s2, Resolved _) =>
        let answer := controlPointService_selectObject w (log s2) DATA in
        let s3 := append [SelectObject DATA answer] s2 in
        match answer with
        | inl error => (s3, Rejected error)
        | inr response => firmwareFlow firmware response w s3
        end
    | (s2, Rejected error) => (s2, Rejected error)
    | (s2, Unfinished) => (s2, Unfinished)
    end.
Proof.
  unfold sendFirmware. cbv zeta. unfold bind at 1.
  unfold _emitInitializeEvent, emit, record. cbn [_getObjectTypeString].
  unfold bind at 1.
  destruct (_open w _) as [s2 [[]|e|]]; [|done|done].
  unfold bind at 1. unfold selectObject, ask, record.
  by destruct (controlPointService_selectObject w (log s2) DATA).
Qed.

(** [_open] logs at most the start of the notifications. *)
Lemma open_no_select (w : World) (s : State) :
  adds (_open w s) s (fun events o =>
    count isSelect events = 0%nat /\ executes events = 0%nat
    /\ executed events = 0%nat /\ o <> Unfinished).
Proof.
  unfold _open. destruct (_isOpen s).
  - exists []. split; [by rewrite append_nil|]. done.
  - eexists. split; [reflexivity|].
    by destruct (adapter_startCharacteristicsNotifications _ _ _ _).
Qed.

Lemma objectEvents_no_select (events : list Event) :
  forallb isObjectEvent events = true -> count isSelect events = 0%nat.
Proof.
  induction events as [|ev events IH]; [done|]. cbn [forallb].
  intros [Hev Hall]%andb_true_iff. unfold count in *. cbn [List.filter].
  destruct ev; cbn in Hev |- *; try done; by apply IH.
Qed.

(** After [SELECT], [sendFirmware] asks for no other. *)
Lemma firmwareFlow_no_select (firmware : list byte) (r : SelectResponse.t)
    (w : World) (s : State) :
  adds (firmwareFlow firmware r w s) s (fun events o =>
    count isSelect events = 0%nat).
Proof.
  unfold firmwareFlow. cbv zeta.
  destruct (Js.length _ >? 0).
  - unfold bind at 1. unfold _emitResumeEvent, emit, record. unfold bind at 1.
    set (s1 := append _ s).
    destruct (writeObject_profile
                (FirmwareState.partialObject (_getFirmwareState firmware r))
                DATA
                (Some (FirmwareState.offset (_getFirmwareState firmware r)))
                (Some (FirmwareState.crc32 (_getFirmwareState firmware r)))
                w s1) as (events & Hs & Hall & _).
    destruct (_writeObject _ _ _ _ _ _) as [s' [p|e|]];
      cbn [fst snd] in *; subst s' s1.
    + rewrite createAndWriteObjects_each.
      destruct (writeEach_profile
                  (FirmwareState.objects (_getFirmwareState firmware r)) DATA
                  (Progress.make (Progress.offset p) (Progress.crc32 p)) w
                  (append events (append [ProgressUpdate
                     ("Resuming " +:+ _getObjectTypeString DATA +:+ " transfer")
                     (FirmwareState.offset (_getFirmwareState firmware r))] s)))
        as (more & Hs' & Hall' & _).
      eexists. split; [by rewrite Hs', !append_append|].
      rewrite !count_app, (objectEvents_no_select events),
        (objectEvents_no_select more) by done. reflexivity.
    + eexists. split; [by rewrite append_append|].
      rewrite !count_app, (objectEvents_no_select events) by done.
      reflexivity.
    + eexists. split; [by rewrite append_append|].
      rewrite !count_app, (objectEvents_no_select events) by done.
      reflexivity.
  - rewrite createAndWriteObjects_each.
    destruct (writeEach_profile
                (FirmwareState.objects (_getFirmwareState firmware r)) DATA
                (Progress.make (FirmwareState.offset (_getFirmwareState firmware r))
                   (FirmwareState.crc32 (_getFirmwareState firmware r))) w s)
      as (more & Hs' & Hall' & _).
    exists more. split; [done|]. by apply objectEvents_no_select.
Qed.

Lemma count_zero_not_in (kind : Event -> bool) (events : list Event)
    (ev : Event) :
  count kind events = 0%nat -> In ev events -> kind ev = false.
Proof.
  unfold count. induction events as [|ev' events IH]; [done|].
  cbn [List.filter In]. destruct (kind ev') eqn:Hk; [done|].
  intros Hc [->|Hin]; [done|]. by apply IH.
Qed.

(** C6, as the code has it.  When [sendFirmware] resolves and [SELECT]
    answered offset 0 with a maximum size [M] above 0, then for a firmware of
    length [L] exactly [ceil(L / M)] [EXECUTE] commands succeeded, one for
    each object.  An [EXECUTE] that fails is issued again by the retry of
    its object, so between [ceil(L / M)] and [3 * ceil(L / M)] were
    issued. *)
Theorem sendFirmware_executed_once_per_object (firmware : list byte)
    (w : World) (s s' : State) (progress : Progress.t)
    (response : SelectResponse.t) :
  sendFirmware firmware w s = (s', Resolved progress) ->
  In (SelectObject DATA (inr response)) (added s s') ->
  SelectResponse.offset response = 0 ->
  0 < SelectResponse.maximumSize response ->
  let n :=
    objectCount (Js.length firmware) (SelectResponse.maximumSize response) in
  executed (added s s') = n /\ (n <= executes (added s s') <= 3 * n)%nat.
Proof.
  intros Hrun Hin Hoffset Hmax n. rewrite sendFirmware_run in Hrun.
  cbv zeta in Hrun.
  destruct (open_no_select w (append [ProgressUpdate "Initializing firmware" 0] s))
    as (opened & Hs2 & Hsel2 & Hex2 & Hexd2 & _).
  destruct (_open w _) as [s2 [[]|e|]]; [|done|done].
  cbn [fst] in Hs2. subst s2.
  destruct (controlPointService_selectObject w _ DATA) as [e|r] eqn:Hanswer;
    [done|].
  rewrite !append_append in Hrun.
  assert (exists before, before
            = [ProgressUpdate "Initializing firmware" 0] ++ opened
              ++ [SelectObject DATA (inr r)]) as [before Hbefore] by eauto.
  rewrite <- Hbefore in Hrun.
  assert (r = response) as ->.
  { destruct (firmwareFlow_no_select firmware r w (append before s))
      as (rest & Hs3 & Hsel3).
    rewrite Hrun in Hs3. cbn [fst] in Hs3. subst s'.
    rewrite append_append, added_append in Hin. subst before.
    rewrite <- !app_assoc in Hin. cbn [app] in Hin.
    destruct Hin as [Hin|Hin]; [done|].
    apply in_app_or in Hin as [Hin|Hin].
    { by apply (count_zero_not_in _ _ _ Hsel2) in Hin. }
    destruct Hin as [Hin|Hin]; [congruence|].
    by apply (count_zero_not_in _ _ _ Hsel3) in Hin. }
  unfold firmwareFlow in Hrun. rewrite getFirmwareState_fresh in Hrun by done.
  cbn [FirmwareState.offset FirmwareState.crc32 FirmwareState.objects
       FirmwareState.partialObject] in Hrun.
  change (Js.length (@nil byte) >? 0) with false in Hrun. cbv iota in Hrun.
  rewrite createAndWriteObjects_each in Hrun.
  destruct (writeEach_profile
              (ArrayUtil.splitArray firmware (SelectResponse.maximumSize response))
              DATA (Progress.make 0 (SelectResponse.crc32 response)) w
              (append before s)) as (rest & Hs3 & _ & Hprofile).
  rewrite Hrun in Hs3, Hprofile. cbn [fst snd] in Hs3, Hprofile. subst s'.
  rewrite length_splitArray in Hprofile by done. fold n in Hprofile.
  rewrite append_append, added_append. subst before.
  unfold executes, executed in *. rewrite !count_app, Hex2, Hexd2.
  change (count isExecute [ProgressUpdate "Initializing firmware" 0]) with 0%nat.
  change (count isExecuted [ProgressUpdate "Initializing firmware" 0]) with 0%nat.
  change (count isExecute [SelectObject DATA (inr response)]) with 0%nat.
  change (count isExecuted [SelectObject DATA (inr response)]) with 0%nat.
  lia.
Qed.

Lemma sendFirmware_executed_once_per_object_witness :
  let w := target (SelectResponse.make 200 0 0) in
  let s' := fst (sendFirmware (payload 500) w fresh) in
  executed (added fresh s') = 3%nat
  /\ (3 <= executes (added fresh s') <= 9)%nat.
Proof.
  cbv zeta.
  apply (sendFirmware_executed_once_per_object (payload 500)
           (target (SelectResponse.make 200 0 0)) fresh _
           (Progress.make 500 (Crc.crc32 (payload 500)))
           (SelectResponse.make 200 0 0)).
  - vm_compute. reflexivity.
  - vm_compute. tauto.
  - reflexivity.
  - reflexivity.
Defined.

(** C6, as the specification states it, does not hold: on a target whose
    first [EXECUTE] fails with [OPERATION_FAILED], sending a firmware of 4
    bytes in objects of 2 bytes resolves after three [EXECUTE] commands,
    for two objects. *)
Lemma sendFirmware_execute_issued_again :
  let w :=
    stumbling (DfuError OPERATION_FAILED "Operation failed")
      (SelectResponse.make 2 0 0) in
  let run := sendFirmware (payload 4) w fresh in
  snd run = Resolved (Progress.make 4 (Crc.crc32 (payload 4)))
  /\ In (SelectObject DATA (inr (SelectResponse.make 2 0 0)))
       (added fresh (fst run))
  /\ objectCount (Js.length (payload 4)) 2 = 2%nat
  /\ executes (added fresh (fst run)) = 3%nat
  /\ executes (added fresh (fst run))
     <> objectCount (Js.length (payload 4)) 2.
Proof.
  cbv zeta. vm_compute. repeat split; [tauto | discriminate].
Qed.

End SendFirmware.

(** ** Sending the init packet *)

Section SendInitPacket.
Import DfuConstants Promise DfuTransport.




Lemma sendInitPacket_run (initPacket : list byte) (w : World) (s : State) :
  sendInitPacket initPacket w s
  = bind (selecting COMMAND) (initPacketFlow initPacket) w s.
Proof.
  unfold sendInitPacket, selecting. cbv zeta.
  rewrite !bind_assoc. apply bind_ext. intros _ w1 s1.
  rewrite !bind_assoc. apply bind_ext. intros _ w2 s2. done.
Qed.





End SendInitPacket.

(** ** Open and closed *)

Section OpenClosed.
Import DfuConstants Promise DfuTransport.

Lemma objectEvent_notStop (ev : Event) :
  isObjectEvent ev = true -> notStop ev = true.
Proof. by destruct ev. Qed.

Lemma adds_adding {A} (c : M A) (P : list Event -> Outcome A -> Prop) :
  (forall w s, adds (c w s) s (fun events o =>
     forallb isObjectEvent events = true /\ P events o)) ->
  adding notStop c.
Proof.
  intros H. apply (adding_weaken isObjectEvent); [apply objectEvent_notStop|].
  intros w s. destruct (H w s) as (events & Hs & Hall & _). eauto.
Qed.

Lemma quiet_emit stage offset : adding notStop (emit stage offset).
Proof. by apply (adding_one _ _ (fun _ _ => ProgressUpdate stage offset)). Qed.

Lemma quiet_open : adding notStop _open.
Proof.
  intros w s. unfold _open. destruct (_isOpen s).
  - exists []. by rewrite append_nil.
  - by eexists.
Qed.

Lemma quiet_selectObject type : adding notStop (selectObject type).
Proof.
  by apply (adding_one _ _ (fun w s =>
    SelectObject type (controlPointService_selectObject w (log s) type))).
Qed.

Lemma quiet_writeObject data type offset crc32 :
  adding notStop (_writeObject data type offset crc32).
Proof. eapply adds_adding. apply writeObject_profile. Qed.

Lemma quiet_createAndWriteObject data type offset crc32 :
  adding notStop (_createAndWriteObject data type offset crc32).
Proof. eapply adds_adding. apply createAndWriteObject_profile. Qed.

Lemma quiet_createAndWriteObjects objects type offset crc32 :
  adding notStop (_createAndWriteObjects objects type offset crc32).
Proof.
  apply (adding_weaken isObjectEvent); [apply objectEvent_notStop|].
  intros w s. rewrite createAndWriteObjects_each.
  destruct (writeEach_profile objects type (Progress.make offset crc32) w s)
    as (events & Hs & Hall & _). eauto.
Qed.

Lemma quiet_sendInitPacket initPacket : adding notStop (sendInitPacket initPacket).
Proof.
  unfold sendInitPacket. cbv zeta.
  apply adding_bind; [apply quiet_emit|]. intros _.
  apply adding_bind; [apply quiet_open|]. intros _.
  apply adding_bind; [apply quiet_selectObject|]. intros response.
  apply adding_bind.
  { unfold _validateInitPacketSize.
    destruct (_ >? _); [apply adding_reject | apply adding_resolve]. }
  intros _. destruct (_canResumePartiallyWrittenObject _ _ _).
  - apply adding_bind; [apply quiet_emit|]. intros _. apply quiet_writeObject.
  - apply quiet_createAndWriteObject.
Qed.

Lemma quiet_sendFirmware firmware : adding notStop (sendFirmware firmware).
Proof.
  unfold sendFirmware. cbv zeta.
  apply adding_bind; [apply quiet_emit|]. intros _.
  apply adding_bind; [apply quiet_open|]. intros _.
  apply adding_bind; [apply quiet_selectObject|]. intros response.
  destruct (_ >? _).
  - apply adding_bind; [apply quiet_emit|]. intros _.
    apply adding_bind; [apply quiet_writeObject|]. intros progress.
    apply quiet_createAndWriteObjects.
  - apply quiet_createAndWriteObjects.
Qed.

Lemma quiet_setPrn prn : adding notStop (setPrn prn).
Proof.
  unfold setPrn. apply adding_bind; [apply quiet_open|]. intros _.
  apply adding_bind.
  { by apply (adding_one _ _ (fun w s =>
      SetPRN prn (controlPointService_setPRN w (log s) prn))). }
  intros _. by apply (adding_one _ _ (fun _ _ => WriterSetPrn prn)).
Qed.

(** [close] on a transport whose [_isOpen] is false resolves at once. *)
Lemma close_closed (w : World) (s : State) :
  _isOpen s = false -> close w s = (s, Resolved tt).
Proof. intros H. unfold close. by rewrite H. Qed.

(** On a transport whose [_isOpen] is false, an operation adds events to
    the log, none of them a stop of the notifications, and changes nothing
    else. *)
Lemma perform_quiet (op : Operation) (w : World) (s : State) :
  _isOpen s = false ->
  exists events,
    perform op w s = append events s /\ forallb notStop events = true.
Proof.
  intros Hclosed. destruct op; cbn [perform].
  - apply quiet_sendInitPacket.
  - apply quiet_sendFirmware.
  - apply quiet_setPrn.
  - by exists [WriterSetMtuSize mtuSize].
  - by exists [WriterAbort].
  - rewrite close_closed by done. exists []. by rewrite append_nil.
Qed.

Lemma notStop_count (events : list Event) :
  forallb notStop events = true -> count isStop events = 0%nat.
Proof.
  induction events as [|ev events IH]; [done|]. cbn [forallb].
  intros [Hev Hall]%andb_true_iff. unfold count in *. cbn [List.filter].
  unfold notStop in Hev. destruct (isStop ev); [done|]. by apply IH.
Qed.

(** X3. Whatever a caller does with a new transport, [_isOpen] stays false and
    the notifications of the control point are never stopped. *)
Lemma transport_never_open (ops : list Operation) (w : World)
    (controlPoint packet : string) :
  let s := performAll ops w (constructor controlPoint packet) in
  _isOpen s = false /\ count isStop (log s) = 0%nat.
Proof.
  cbv zeta. unfold performAll.
  assert (_isOpen (constructor controlPoint packet) = false
          /\ count isStop (log (constructor controlPoint packet)) = 0%nat)
    as Hfresh by done.
  revert Hfresh. generalize (constructor controlPoint packet).
  induction ops as [|op ops IH]; intros s [Hopen Hstop]; [done|].
  cbn [fold_left]. apply IH.
  destruct (perform_quiet op w s Hopen) as (events & -> & Hquiet).
  split; [done|].
  by rewrite log_append, count_app, Hstop, (notStop_count events Hquiet).
Qed.

(** C3, on a target that accepts everything.  A new transport has
    [_isOpen] false.  [sendInitPacket] resolves and starts the
    notifications of the control point once, and [_isOpen] is false after
    it.  [close] then resolves with the state unchanged: the notifications
    are not stopped.  A second operation starts the notifications a second
    time. *)
Theorem close_after_send_stops_nothing :
  let w := target (SelectResponse.make 256 0 0) in
  let sent := sendInitPacket (payload 100) w fresh in
  let closed := close w (fst sent) in
  _isOpen fresh = false
  /\ snd sent = Resolved (Progress.make 100 (Crc.crc32 (payload 100)))
  /\ count isStart (log (fst sent)) = 1%nat
  /\ _isOpen (fst sent) = false
  /\ closed = (fst sent, Resolved tt)
  /\ count isStop (log (fst closed)) = 0%nat
  /\ count isStart (log (fst (setPrn 0 w (fst sent)))) = 2%nat.
Proof. cbv zeta. vm_compute. done. Qed.

End OpenClosed.

(** ** The update package *)

Section Package.
Import DfuConstants Dfu.

(** C10. [getManifest] checks its argument before it reads anything: it
    throws [Error('Missing argument zipFilePath.')] when [zipFilePath] is
    [undefined], and [Error('zipFilePath must be a non-empty string.')] when
    it is not a string or is the empty string.  In both cases no file is
    read and the callback is not called.  A string that is not empty is not
    refused: nothing is thrown and the file of that name is read. *)
Theorem getManifest_validates_argument (p : Platform) :
  getManifest p None
  = {| thrown := Some (PlainError "Missing argument zipFilePath.");
       reads := []; calls := [] |}
  /\ (forall value,
        (forall path, value = Json.String path -> path = "") ->
        getManifest p (Some value)
        = {| thrown :=
               Some (PlainError "zipFilePath must be a non-empty string.");
             reads := []; calls := [] |})
  /\ (forall path,
        path <> "" ->
        thrown (getManifest p (Some (Json.String path))) = None
        /\ reads (getManifest p (Some (Json.String path))) = [path]).
Proof.
  split; [done|]. split.
  - intros value Hvalue. destruct value; try done.
    by rewrite (Hvalue s eq_refl).
  - intros path Hpath. unfold getManifest.
    destruct path as [|c path]; [done|]. cbn [String.length Nat.eqb].
    unfold _loadZip. done.
Qed.

Lemma promiseChain_object (zip : ZipObject) (properties : list (string * Json.t))
    (types : list string) (updates : list Update) :
  promiseChain zip (Some (Json.Object properties)) types updates
  = inr (updates
         ++ flat_map
              (fun slot =>
                 let update := Json.lookup slot properties in
                 if Json.truthy update then [makeUpdate zip update] else [])
              types).
Proof.
  revert updates. induction types as [|type types IH]; intros updates.
  - cbn. by rewrite app_nil_r.
  - cbn [promiseChain flat_map]. unfold createUpdatePromise. cbn [Json.get].
    destruct (Json.truthy (Json.lookup type properties)).
    + rewrite IH. by rewrite <- app_assoc.
    + by rewrite IH.
Qed.

Lemma promisify_fulfilled {A} (r : Run A) (a : A) :
  promisify r = Fulfilled a -> thrown r = None.
Proof. unfold promisify. by destruct (thrown r). Qed.

(** When archive and manifest are read, the updates are those of the
    manifest. *)
Lemma fetchUpdates_fulfilled (p : Platform) (zipFilePath : string)
    (zip : ZipObject) (properties : list (string * Json.t)) :
  _loadZipAsync p zipFilePath = Fulfilled zip ->
  _getManifestAsync p (Some (Json.String zipFilePath))
  = Fulfilled (Some (Json.Object properties)) ->
  _fetchUpdates p zipFilePath = Fulfilled (updatesOf zip properties).
Proof.
  intros Hzip Hmanifest. unfold _fetchUpdates.
  rewrite (promisify_fulfilled _ _ Hmanifest), Hzip, Hmanifest.
  unfold updateTypes. by rewrite promiseChain_object.
Qed.

Lemma lookup_permutation (key : string) (a b : list (string * Json.t)) :
  Permutation a b -> NoDup (map fst a) ->
  Json.lookup key a = Json.lookup key b.
Proof.
  induction 1 as [|[k v] a b Hperm IH|[k1 v1] [k2 v2] a|a b c Hab IHab Hbc IHbc];
    intros Hnodup.
  - done.
  - cbn [Json.lookup]. destruct (String.eqb k key); [done|].
    apply IH. by inversion Hnodup.
  - cbn [Json.lookup].
    destruct (String.eqb_spec k1 key) as [->|]; [|done].
    destruct (String.eqb_spec k2 key) as [->|]; [|done].
    cbn [map fst] in Hnodup. inversion Hnodup as [|? ? Hnotin]. subst.
    exfalso. apply Hnotin. by left.
  - rewrite IHab by done. apply IHbc.
    by rewrite <- (Permutation_map fst Hab).
Qed.

Lemma updatesOf_last (zip : ZipObject) (properties : list (string * Json.t)) :
  Json.truthy (Json.lookup "application" properties) = true ->
  last (updatesOf zip properties)
  = Some (makeUpdate zip (Json.lookup "application" properties)).
Proof.
  intros Happ. unfold updatesOf. cbn [flat_map]. rewrite Happ.
  rewrite app_nil_r, !app_assoc. by rewrite last_snoc.
Qed.

(** C9. When archive and manifest are read, the array that [_fetchUpdates]
    resolves with holds one update for each of the slots softdevice,
    bootloader, softdevice_bootloader and application that the manifest
    has, in that order.  The update of the application, when there is one,
    is the last.  A manifest with the same keys in another order gives the
    same array. *)
Theorem fetchUpdates_order (p : Platform) (zipFilePath : string)
    (zip : ZipObject) (properties : list (string * Json.t)) :
  _loadZipAsync p zipFilePath = Fulfilled zip ->
  _getManifestAsync p (Some (Json.String zipFilePath))
  = Fulfilled (Some (Json.Object properties)) ->
  _fetchUpdates p zipFilePath = Fulfilled (updatesOf zip properties)
  /\ (Json.truthy (Json.lookup "application" properties) = true ->
      last (updatesOf zip properties)
      = Some (makeUpdate zip (Json.lookup "application" properties)))
  /\ (forall reordered,
        Permutation properties reordered -> NoDup (map fst properties) ->
        updatesOf zip reordered = updatesOf zip properties).
Proof.
  intros Hzip Hmanifest. split; [by apply fetchUpdates_fulfilled|].
  split; [apply updatesOf_last|].
  intros reordered Hperm Hnodup. unfold updatesOf. cbn [flat_map].
  by rewrite !(lookup_permutation _ _ _ Hperm Hnodup).
Qed.

Lemma fetchUpdates_order_witness :
  let p := platform archive (inr (Json.Object [("manifest", Json.Object manifest)])) in
  _fetchUpdates p "dfu.zip"
  = Fulfilled [makeUpdate archive (Some (slot "sd.dat" "sd.bin"));
               makeUpdate archive (Some (slot "bl.dat" "bl.bin"));
               makeUpdate archive (Some (slot "app.dat" "app.bin"))].
Proof.
  cbv zeta.
  apply (proj1 (fetchUpdates_order
                  (platform archive
                     (inr (Json.Object [("manifest", Json.Object manifest)])))
                  "dfu.zip" archive manifest eq_refl eq_refl)).
Defined.






End Package.

(** ** The scenarios of the specification *)

Section Scenarios.
Import DfuConstants Promise DfuTransport.

(** The check value of CRC-32: the checksum of the digits 1 to 9. *)
Example crc32_check :
  Crc.crc32 [x31; x32; x33; x34; x35; x36; x37; x38; x39]%byte = 0xCBF43926.
Proof. vm_compute. reflexivity. Qed.

(** The checksum of a payload is that of its parts, one after the other. *)
Lemma crc32_update_app (previous : Z) (a b : list byte) :
  Crc.crc32_update (Crc.crc32_update previous a) b
  = Crc.crc32_update previous (a ++ b).
Proof.
  unfold Crc.crc32_update. rewrite fold_left_app.
  by rewrite Z.lxor_assoc, Z.lxor_nilpotent, Z.lxor_0_r.
Qed.

(** Fresh init packet of 100 bytes, maximum size 256. *)
Example scenario_fresh_init_packet :
  let run := sendInitPacket (payload 100) (target (SelectResponse.make 256 0 0)) fresh in
  map step (log (fst run))
  = [Stage "Initializing init packet" 0; Notify true; Select 1;
     Create 1 100 true; Write 100 None (Some 100); Calc (Some 100); Exec true]
  /\ snd run = Resolved (Progress.make 100 (Crc.crc32 (payload 100))).
Proof. cbv zeta. vm_compute. done. Qed.

(** Init packet of 100 bytes, of which the target has 40. *)
Example scenario_resume_init_packet :
  let initPacket := payload 100 in
  let selected := SelectResponse.make 256 40 (Crc.crc32 (range initPacket 0 40)) in
  let run := sendInitPacket initPacket (target selected) fresh in
  map step (log (fst run))
  = [Stage "Initializing init packet" 0; Notify true; Select 1;
     Stage "Resuming init packet transfer" 40;
     Write 60 (Some (40, Crc.crc32 (range initPacket 0 40))) (Some 100);
     Calc (Some 100); Exec true]
  /\ snd run = Resolved (Progress.make 100 (Crc.crc32 initPacket)).
Proof. cbv zeta. vm_compute. done. Qed.

(** Fresh firmware of 500 bytes in objects of 200 bytes. *)
Example scenario_fresh_firmware :
  let firmware := payload 500 in
  let run := sendFirmware firmware (target (SelectResponse.make 200 0 0)) fresh in
  map step (log (fst run))
  = [Stage "Initializing firmware" 0; Notify true; Select 2;
     Create 2 200 true; Write 200 (Some (0, 0)) (Some 200);
     Calc (Some 200); Exec true;
     Create 2 200 true;
     Write 200 (Some (200, Crc.crc32 (range firmware 0 200))) (Some 400);
     Calc (Some 400); Exec true;
     Create 2 100 true;
     Write 100 (Some (400, Crc.crc32 (range firmware 0 400))) (Some 500);
     Calc (Some 500); Exec true]
  /\ snd run = Resolved (Progress.make 500 (Crc.crc32 firmware)).
Proof. cbv zeta. vm_compute. done. Qed.

(** Firmware of 500 bytes, of which the target reports 250 with a checksum
    that is not that of the firmware: the open object is created again. *)
Example scenario_rollback :
  let firmware := payload 500 in
  let state := _getFirmwareState firmware (SelectResponse.make 200 250 0) in
  FirmwareState.offset state = 200
  /\ FirmwareState.crc32 state = Crc.crc32 (range firmware 0 200)
  /\ FirmwareState.partialObject state = []
  /\ FirmwareState.objects state
     = [range firmware 200 400; range firmware 400 500]
  /\ map step (added fresh (fst (sendFirmware firmware
                 (target (SelectResponse.make 200 250 0)) fresh)))
     = [Stage "Initializing firmware" 0; Notify true; Select 2;
        Create 2 200 true;
        Write 200 (Some (200, Crc.crc32 (range firmware 0 200))) (Some 400);
        Calc (Some 400); Exec true;
        Create 2 100 true;
        Write 100 (Some (400, Crc.crc32 (range firmware 0 400))) (Some 500);
        Calc (Some 500); Exec true].
Proof. cbv zeta. vm_compute. done. Qed.

(** Firmware of 500 bytes, of which the target has 250: the rest of the
    open object is written first, without [CREATE]. *)
Example scenario_resume_firmware :
  let firmware := payload 500 in
  let selected := SelectResponse.make 200 250 (Crc.crc32 (range firmware 0 250)) in
  map step (added fresh (fst (sendFirmware firmware (target selected) fresh)))
  = [Stage "Initializing firmware" 0; Notify true; Select 2;
     Stage "Resuming firmware transfer" 250;
     Write 150 (Some (250, Crc.crc32 (range firmware 0 250))) (Some 400);
     Calc (Some 400); Exec true;
     Create 2 100 true;
     Write 100 (Some (400, Crc.crc32 (range firmware 0 400))) (Some 500);
     Calc (Some 500); Exec true].
Proof. cbv zeta. vm_compute. done. Qed.

(** The [CREATE] of the second object fails once with [OPERATION_FAILED]:
    it is issued again, and the objects executed are the same. *)
Example scenario_retry :
  let firmware := payload 500 in
  let w :=
    hesitating (DfuError OPERATION_FAILED "Operation failed")
      (SelectResponse.make 200 0 0) in
  let run := sendFirmware firmware w fresh in
  map step (log (fst run))
  = [Stage "Initializing firmware" 0; Notify true; Select 2;
     Create 2 200 true; Write 200 (Some (0, 0)) (Some 200);
     Calc (Some 200); Exec true;
     Create 2 200 false;
     Create 2 200 true;
     Write 200 (Some (200, Crc.crc32 (range firmware 0 200))) (Some 400);
     Calc (Some 400); Exec true;
     Create 2 100 true;
     Write 100 (Some (400, Crc.crc32 (range firmware 0 400))) (Some 500);
     Calc (Some 500); Exec true]
  /\ snd run = Resolved (Progress.make 500 (Crc.crc32 firmware)).
Proof. cbv zeta. vm_compute. done. Qed.

(** An error with the code [ABORTED] is not retried. *)
Example scenario_abort :
  let w :=
    refusing (DfuError ABORTED "Aborted") (SelectResponse.make 200 0 0) in
  let run := sendFirmware (payload 500) w fresh in
  map step (log (fst run))
  = [Stage "Initializing firmware" 0; Notify true; Select 2;
     Create 2 200 false]
  /\ snd run = Rejected (DfuError ABORTED "Aborted").
Proof. cbv zeta. vm_compute. done. Qed.

(** An error that may be retried is given up after three attempts. *)
Example scenario_three_attempts :
  let w :=
    refusing (DfuError OPERATION_FAILED "Operation failed")
      (SelectResponse.make 200 0 0) in
  let run := sendFirmware (payload 500) w fresh in
  map step (log (fst run))
  = [Stage "Initializing firmware" 0; Notify true; Select 2;
     Create 2 200 false; Create 2 200 false; Create 2 200 false]
  /\ snd run = Rejected (DfuError OPERATION_FAILED "Operation failed").
Proof. cbv zeta. vm_compute. done. Qed.

End Scenarios.

(** ** More on the transport *)

Section MoreTransport.
Import DfuConstants Promise DfuTransport.

Lemma selecting_run (type : ObjectType) (w : World) (s : State) :
  selecting type w s
  = let s1 :=
      append [ProgressUpdate ("Initializing " +:+ _getObjectTypeString type) 0] s in
    match _open w s1 with
    | (s2, Resolved _) =>
        let answer := controlPointService_selectObject w (log s2) type in
        (append [SelectObject type answer] s2,
         match answer with
         | inl error => Rejected error
         | inr response => Resolved response
         end)
    | (s2, Rejected error) => (s2, Rejected error)
    | (s2, Unfinished) => (s2, Unfinished)
    end.
Proof.
  unfold selecting. cbv zeta. unfold bind at 1.
  unfold _emitInitializeEvent, emit, record. unfold bind at 1.
  by destruct (_open w _) as [s2 [[]|e|]].
Qed.

Lemma sendFirmware_flow (firmware : list byte) (w : World) (s : State) :
  sendFirmware firmware w s
  = bind (selecting DATA) (firmwareFlow firmware) w s.
Proof.
  unfold sendFirmware, selecting. cbv zeta.
  rewrite !bind_assoc. apply bind_ext. intros _ w1 s1.
  rewrite !bind_assoc. apply bind_ext. intros _ w2 s2. done.
Qed.

Lemma slice_beyond {A} (l : list A) (a b : Z) :
  Js.length l <= a -> Js.slice l a b = [].
Proof.
  intros Ha. unfold Js.slice, Js.relativeIndex, Js.length in *.
  destruct (Z.ltb_spec a 0); [lia|].
  rewrite (Z.min_r a) by lia. rewrite drop_ge by lia. apply take_nil.
Qed.

Lemma getRemainingPartialObject_nil (data : list byte)
    (maximumSize offset : Z) :
  Js.length data <= offset ->
  _getRemainingPartialObject data maximumSize offset = [].
Proof.
  intros Ho. unfold _getRemainingPartialObject.
  destruct (_ || _ || _); [done|].
  destruct (Js.rem offset maximumSize); by apply slice_beyond.
Qed.

(** X5. An init packet that is longer than the maximum size that [SELECT]
    answered is refused with [INIT_PACKET_TOO_LARGE], and nothing is issued
    after [SELECT], whatever offset and checksum the target has. *)
Theorem sendInitPacket_too_large (initPacket : list byte) (w : World)
    (s s3 : State) (response : SelectResponse.t) :
  selecting COMMAND w s = (s3, Resolved response) ->
  SelectResponse.maximumSize response < Js.length initPacket ->
  exists message,
    sendInitPacket initPacket w s
    = (s3, Rejected (DfuError INIT_PACKET_TOO_LARGE message)).
Proof.
  intros Hselect Hsize. rewrite sendInitPacket_run. unfold bind at 1.
  rewrite Hselect. unfold initPacketFlow. cbv zeta. unfold bind at 1.
  unfold _validateInitPacketSize.
  destruct (Z.gtb_spec (Js.length initPacket)
              (SelectResponse.maximumSize response)); [|lia].
  unfold reject, createError. eauto.
Qed.

Lemma sendInitPacket_too_large_witness :
  exists message,
    sendInitPacket (payload 300) (target (SelectResponse.make 256 0 0)) fresh
    = (fst (selecting COMMAND (target (SelectResponse.make 256 0 0)) fresh),
       Rejected (DfuError INIT_PACKET_TOO_LARGE message)).
Proof.
  apply (sendInitPacket_too_large (payload 300)
           (target (SelectResponse.make 256 0 0)) fresh _
           (SelectResponse.make 256 0 0) eq_refl).
  vm_compute. reflexivity.
Defined.

(** X6. When the target already has the whole firmware, or more
    ([offset >= len(firmware)]), [sendFirmware] issues nothing after
    [SELECT] and resolves with the offset and the checksum of the target as
    they are: the checksum is not compared with that of the firmware. *)
Theorem sendFirmware_nothing_left (firmware : list byte) (w : World)
    (s s3 : State) (response : SelectResponse.t) :
  selecting DATA w s = (s3, Resolved response) ->
  0 < SelectResponse.maximumSize response ->
  Js.length firmware <= SelectResponse.offset response ->
  sendFirmware firmware w s
  = (s3, Resolved (Progress.make (SelectResponse.offset response)
                     (SelectResponse.crc32 response))).
Proof.
  intros Hselect Hmax Hoffset. rewrite sendFirmware_flow. unfold bind at 1.
  rewrite Hselect. unfold firmwareFlow. cbv zeta.
  assert (0 <= Js.length firmware) as Hlen by (unfold Js.length; lia).
  assert (_getRemainingPartialObject firmware
            (SelectResponse.maximumSize response)
            (SelectResponse.offset response) = []) as Hpartial.
  { by apply getRemainingPartialObject_nil. }
  assert (_getFirmwareState firmware response
          = {| FirmwareState.offset := SelectResponse.offset response;
               FirmwareState.crc32 := SelectResponse.crc32 response;
               FirmwareState.objects := [];
               FirmwareState.partialObject := [] |}) as ->.
  { unfold _getFirmwareState. rewrite Hpartial.
    change (Js.length (@nil byte) >? 0) with false. cbn [andb].
    rewrite Z.add_0_r, sliceFrom_drop by lia.
    rewrite drop_ge by (unfold Js.length in *; lia).
    unfold ArrayUtil.splitArray.
    by destruct (SelectResponse.maximumSize response <? 1). }
  cbn [FirmwareState.offset FirmwareState.crc32 FirmwareState.objects
       FirmwareState.partialObject].
  change (Js.length (@nil byte) >? 0) with false. cbv iota.
  reflexivity.
Qed.

Lemma sendFirmware_nothing_left_witness :
  let w := target (SelectResponse.make 200 500 7) in
  sendFirmware (payload 500) w fresh
  = (fst (selecting DATA w fresh), Resolved (Progress.make 500 7)).
Proof.
  cbv zeta.
  apply (sendFirmware_nothing_left (payload 500)
           (target (SelectResponse.make 200 500 7)) fresh _
           (SelectResponse.make 200 500 7) eq_refl).
  - reflexivity.
  - vm_compute. discriminate.
Defined.

(** [_open] logs the start of the notifications, or nothing. *)
Lemma open_starts (w : World) (s : State) :
  exists opened,
    fst (_open w s) = append opened s
    /\ forallb isStart opened = true
    /\ snd (_open w s) <> Unfinished.
Proof.
  unfold _open. destruct (_isOpen s).
  - exists []. by rewrite append_nil.
  - eexists. split; [reflexivity|]. split; [done|].
    by destruct (adapter_startCharacteristicsNotifications _ _ _ _).
Qed.

Lemma starts_count (kind : Event -> bool) (events : list Event) :
  (forall ev, isStart ev = true -> kind ev = false) ->
  forallb isStart events = true -> count kind events = 0%nat.
Proof.
  intros Hkind. induction events as [|ev events IH]; [done|]. cbn [forallb].
  intros [Hev Hall]%andb_true_iff. unfold count in *. cbn [List.filter].
  rewrite (Hkind ev Hev). by apply IH.
Qed.

Lemma setPrn_run (prn : Z) (w : World) (s : State) :
  setPrn prn w s
  = match _open w s with
    | (s1, Resolved _) =>
        match controlPointService_setPRN w (log s1) prn with
        | Some error => (append [SetPRN prn (Some error)] s1, Rejected error)
        | None => (append [SetPRN prn None; WriterSetPrn prn] s1, Resolved tt)
        end
    | (s1, Rejected error) => (s1, Rejected error)
    | (s1, Unfinished) => (s1, Unfinished)
    end.
Proof.
  unfold setPrn. unfold bind at 1.
  destruct (_open w s) as [s1 [[]|e|]]; [|done|done].
  unfold bind, setPRN, tell, record.
  destruct (controlPointService_setPRN w (log s1) prn); [done|].
  by rewrite append_append.
Qed.

(** X7. [setPrn] sets the value on the target before it sets it on the
    object writer: the writer is given the value if and only if
    [SET_PRN] succeeded, which is when [setPrn] resolves, and the
    [SET_PRN] for that value is then the event just before. *)
Theorem setPrn_target_first (prn : Z) (w : World) (s : State) :
  let run := setPrn prn w s in
  let events := added s (fst run) in
  (snd run = Resolved tt <-> count isWriterSetPrn events = 1%nat)
  /\ (snd run <> Resolved tt -> count isWriterSetPrn events = 0%nat)
  /\ (snd run = Resolved tt ->
      exists before, events = before ++ [SetPRN prn None; WriterSetPrn prn]).
Proof.
  cbv zeta. rewrite setPrn_run.
  destruct (open_starts w s) as (opened & Hs1 & Hstarts & Hfin).
  assert (count isWriterSetPrn opened = 0%nat) as Hnone.
  { apply starts_count; [|done]. by intros []. }
  destruct (_open w s) as [s1 [[]|e|]]; cbn [fst snd] in *; subst s1;
    [|by rewrite added_append, Hnone|done].
  destruct (controlPointService_setPRN w _ prn) as [error|];
    cbn [fst snd]; rewrite append_append, added_append, count_app, Hnone.
  - by repeat split.
  - repeat split; try done. by exists opened.
Qed.

(** What is left of an object ends where the object ends. *)
Lemma length_getRemainingPartialObject (firmware : list byte)
    (maximumSize offset : Z) :
  0 < maximumSize -> 0 <= offset ->
  _getRemainingPartialObject firmware maximumSize offset <> [] ->
  0 < offset < Js.length firmware
  /\ offset mod maximumSize <> 0
  /\ _getRemainingPartialObject firmware maximumSize offset
     = range firmware offset (offset + maximumSize - offset mod maximumSize)
  /\ offset
     + Js.length (_getRemainingPartialObject firmware maximumSize offset)
     = Z.min (Js.length firmware)
         (offset + maximumSize - offset mod maximumSize).
Proof.
  intros Hm Ho Hne.
  pose proof (Z.mod_pos_bound offset maximumSize Hm) as Hb.
  destruct (Z_le_gt_dec (Js.length firmware) offset) as [Hbeyond|Hin].
  { by rewrite getRemainingPartialObject_nil in Hne. }
  revert Hne. unfold _getRemainingPartialObject. rewrite rem_nonneg by lia.
  destruct (Z.eqb_spec offset 0); [done|].
  destruct (Z.eqb_spec offset (Js.length firmware)); [lia|].
  case_bool_decide as Hr; [done|]. cbn [orb]. intros _.
  assert (offset mod maximumSize <> 0) by congruence.
  rewrite slice_range by lia. rewrite length_range by lia.
  repeat split; lia.
Qed.

(** X8. A partial object that is not empty holds fewer bytes than an
    object, and ends on an object boundary or at the end of the firmware. *)
Theorem partialObject_ends_object (firmware : list byte)
    (maximumSize offset : Z) :
  0 < maximumSize -> 0 <= offset ->
  let partial := _getRemainingPartialObject firmware maximumSize offset in
  partial <> [] ->
  0 < Js.length partial < maximumSize
  /\ ((offset + Js.length partial) mod maximumSize = 0
      \/ offset + Js.length partial = Js.length firmware).
Proof.
  intros Hm Ho partial Hne.
  destruct (length_getRemainingPartialObject firmware maximumSize offset
              Hm Ho Hne) as (Hin & Hr & _ & Hend).
  fold partial in Hend.
  pose proof (Z.mod_pos_bound offset maximumSize Hm) as Hb.
  assert ((offset + maximumSize - offset mod maximumSize) mod maximumSize = 0)
    as Hboundary.
  { rewrite (Z.div_mod offset maximumSize) at 1 by lia.
    replace (maximumSize * (offset / maximumSize) + offset mod maximumSize
             + maximumSize - offset mod maximumSize)
      with ((offset / maximumSize + 1) * maximumSize) by lia.
    apply Z.mod_mul. lia. }
  split; [lia|].
  destruct (Z.min_spec (Js.length firmware)
              (offset + maximumSize - offset mod maximumSize)) as [[_ Hmin]|[_ Hmin]].
  - right. lia.
  - left. by rewrite Hend, Hmin.
Qed.

Lemma partialObject_ends_object_witness :
  let partial := _getRemainingPartialObject (payload 500) 200 250 in
  0 < Js.length partial < 200
  /\ ((250 + Js.length partial) mod 200 = 0
      \/ 250 + Js.length partial = Js.length (payload 500)).
Proof.
  apply (partialObject_ends_object (payload 500) 200 250).
  - reflexivity.
  - discriminate.
  - vm_compute. discriminate.
Defined.

End MoreTransport.

(** ** More on objects *)

Section MoreObjects.
Import DfuConstants Promise DfuTransport.

Lemma concat_chunks {A} (fuel chunkSize : nat) (data : list A) :
  (1 <= chunkSize)%nat -> (length data <= fuel)%nat ->
  concat (ArrayUtil.chunks fuel chunkSize data) = data.
Proof.
  intros Hc. revert data. induction fuel as [|fuel IH]; intros data Hfuel.
  - destruct data; [done|]. cbn in Hfuel. lia.
  - destruct data as [|x data]; [done|].
    cbn [ArrayUtil.chunks concat]. rewrite IH.
    + apply take_drop.
    + rewrite length_drop. cbn [length] in *. lia.
Qed.

Lemma concat_splitArray {A} (data : list A) (chunkSize : Z) :
  0 < chunkSize -> concat (ArrayUtil.splitArray data chunkSize) = data.
Proof.
  intros Hc. unfold ArrayUtil.splitArray.
  destruct (Z.ltb_spec chunkSize 1); [lia|]. apply concat_chunks; lia.
Qed.

Lemma take_drop_length {A} (k : nat) (l : list A) :
  take k l ++ drop (length (take k l)) l = l.
Proof.
  rewrite length_take. destruct (Nat.min_spec k (length l)) as [[_ ->]|[Hle ->]].
  - apply take_drop.
  - rewrite take_ge by lia. rewrite drop_all. apply app_nil_r.
Qed.

(** X9. What [_getFirmwareState] leaves to be sent is the firmware from the
    start offset on, with no byte left out and none twice: the partial
    object followed by the objects, one after the other, is
    [firmware[offset..]] for the offset of the state, when that offset is
    not negative. *)
Theorem getFirmwareState_covers (firmware : list byte)
    (response : SelectResponse.t) :
  0 < SelectResponse.maximumSize response ->
  0 <= SelectResponse.offset response ->
  let state := _getFirmwareState firmware response in
  0 <= FirmwareState.offset state ->
  FirmwareState.partialObject state ++ concat (FirmwareState.objects state)
  = drop (Z.to_nat (FirmwareState.offset state)) firmware.
Proof.
  intros Hmax Hoffset. cbv zeta. unfold _getFirmwareState.
  set (partial := _getRemainingPartialObject firmware
                    (SelectResponse.maximumSize response)
                    (SelectResponse.offset response)).
  destruct ((Js.length partial >? 0)
            && negb (_canResumePartiallyWrittenObject firmware
                       (SelectResponse.offset response)
                       (SelectResponse.crc32 response))).
  - cbn [FirmwareState.offset FirmwareState.partialObject
         FirmwareState.objects app].
    change (Js.length (@nil byte)) with 0. rewrite Z.add_0_r. intros Hstart.
    rewrite concat_splitArray by done. by apply sliceFrom_drop.
  - cbn [FirmwareState.offset FirmwareState.partialObject
         FirmwareState.objects]. intros _.
    rewrite concat_splitArray by done.
    rewrite sliceFrom_drop by (unfold Js.length; lia).
    unfold Js.length. rewrite Z2Nat.inj_add, Nat2Z.id by lia.
    rewrite <- drop_drop.
    destruct (decide (partial = [])) as [Hnil|Hne].
    + rewrite Hnil. cbn [length]. by rewrite drop_0.
    + destruct (length_getRemainingPartialObject firmware
                  (SelectResponse.maximumSize response)
                  (SelectResponse.offset response) Hmax Hoffset Hne)
        as (_ & _ & Hrange & _).
      fold partial in Hrange. rewrite Hrange. unfold range.
      apply take_drop_length.
Qed.

Lemma getFirmwareState_covers_witness :
  let state :=
    _getFirmwareState (payload 500)
      (SelectResponse.make 200 250 (Crc.crc32 (range (payload 500) 0 250))) in
  FirmwareState.partialObject state ++ concat (FirmwareState.objects state)
  = drop (Z.to_nat (FirmwareState.offset state)) (payload 500).
Proof.
  apply (getFirmwareState_covers (payload 500)
           (SelectResponse.make 200 250 (Crc.crc32 (range (payload 500) 0 250)))).
  - reflexivity.
  - discriminate.
  - vm_compute. discriminate.
Defined.

(** X10. On an object boundary the checksum of the target is taken as it
    is.  When the offset is a multiple of the maximum size, the state keeps
    the offset and the checksum of the target, whatever the checksum, and
    all that follows the offset is split into objects. *)
Theorem getFirmwareState_on_boundary (firmware : list byte)
    (response : SelectResponse.t) :
  0 < SelectResponse.maximumSize response ->
  0 <= SelectResponse.offset response ->
  SelectResponse.offset response mod SelectResponse.maximumSize response = 0 ->
  _getFirmwareState firmware response
  = {| FirmwareState.offset := SelectResponse.offset response;
       FirmwareState.crc32 := SelectResponse.crc32 response;
       FirmwareState.objects :=
         ArrayUtil.splitArray
           (drop (Z.to_nat (SelectResponse.offset response)) firmware)
           (SelectResponse.maximumSize response);
       FirmwareState.partialObject := [] |}.
Proof.
  intros Hmax Hoffset Hboundary.
  assert (_getRemainingPartialObject firmware
            (SelectResponse.maximumSize response)
            (SelectResponse.offset response) = []) as Hpartial.
  { unfold _getRemainingPartialObject. rewrite rem_nonneg, Hboundary by lia.
    rewrite bool_decide_eq_true_2 by done. by rewrite orb_true_r. }
  unfold _getFirmwareState. rewrite Hpartial.
  change (Js.length (@nil byte) >? 0) with false. cbn [andb].
  by rewrite Z.add_0_r, sliceFrom_drop by lia.
Qed.

Lemma getFirmwareState_on_boundary_witness :
  FirmwareState.crc32
    (_getFirmwareState (payload 500) (SelectResponse.make 200 400 12345))
  = 12345.
Proof.
  rewrite (getFirmwareState_on_boundary (payload 500)
             (SelectResponse.make 200 400 12345)); [reflexivity| | |];
    [reflexivity | discriminate | reflexivity].
Defined.

(** X11. [_createAndWriteObject] issues one to three [CREATE] commands and
    at most one [EXECUTE] for each of them.  When it resolves, exactly one
    [EXECUTE] succeeded; when it is rejected, none did.  It issues nothing
    but [CREATE], writes, [CALCULATE_CRC] and [EXECUTE]. *)
Theorem createAndWriteObject_attempts (data : list byte) (type : ObjectType)
    (offset crc32 : option Z) (w : World) (s : State) :
  let run := _createAndWriteObject data type offset crc32 w s in
  let events := added s (fst run) in
  forallb isObjectEvent events = true
  /\ (1 <= creates events <= 3)%nat
  /\ (executes events <= creates events)%nat
  /\ match snd run with
     | Resolved _ => executed events = 1%nat
     | Rejected _ => executed events = 0%nat
     | Unfinished => False
     end.
Proof.
  cbv zeta.
  pose proof (adds_added _ _ _
                (createAndWriteObject_profile data type offset crc32 w s))
    as (Hall & Hcreates & Hexecutes & Hend).
  repeat split; try done; try lia.
  by destruct (snd (_createAndWriteObject _ _ _ _ _ _)) as [p|e|];
    [destruct Hend| |].
Qed.

Lemma writeEach_app (objects1 objects2 : list (list byte)) (type : ObjectType)
    (progress : Progress.t) (w : World) (s : State) :
  writeEach (objects1 ++ objects2) type progress w s
  = bind (writeEach objects1 type progress) (writeEach objects2 type) w s.
Proof.
  revert progress w s.
  induction objects1 as [|object objects1 IH]; intros progress w s.
  - done.
  - cbn [app writeEach]. rewrite bind_assoc. apply bind_ext.
    intros p w1 s1. apply IH.
Qed.

(** X12. Sending a list of objects is sending its first part and then the
    rest, started with the progress that the first part returned. *)
Theorem createAndWriteObjects_app (objects1 objects2 : list (list byte))
    (type : ObjectType) (offset crc32 : Z) (w : World) (s : State) :
  _createAndWriteObjects (objects1 ++ objects2) type offset crc32 w s
  = (progress <- _createAndWriteObjects objects1 type offset crc32 ;;
     _createAndWriteObjects objects2 type
       (Progress.offset progress) (Progress.crc32 progress))%promise w s.
Proof.
  rewrite createAndWriteObjects_each, writeEach_app.
  unfold bind. rewrite createAndWriteObjects_each.
  destruct (writeEach objects1 type _ w s) as [s1 [[o c]|e|]]; [|done|done].
  by rewrite createAndWriteObjects_each.
Qed.

Lemma writeEach_stops (objects : list (list byte)) (type : ObjectType)
    (progress : Progress.t) (w : World) (s : State) :
  adds (writeEach objects type progress w s) s (fun events o =>
    match o with
    | Resolved _ =>
        executed events = length objects
        /\ (creates events <= 3 * length objects)%nat
    | Rejected _ =>
        (executed events < length objects)%nat
        /\ (creates events <= 3 * (executed events + 1))%nat
    | Unfinished => False
    end).
Proof.
  revert progress s. induction objects as [|object objects IH];
    intros progress s; cbn [writeEach].
  - exists []. split; [by rewrite append_nil|]. by cbn.
  - unfold bind.
    destruct (createAndWriteObject_profile object type
                (Some (Progress.offset progress))
                (Some (Progress.crc32 progress)) w s)
      as (events & Hs & Hall & Hc & He & Ho).
    destruct (_createAndWriteObject _ _ _ _ _ _) as [s' [p|e|]];
      cbn [fst snd] in *; subst s'; [| |done].
    + destruct (IH p (append events s)) as (more & Hs' & Ho').
      exists (events ++ more). split; [by rewrite Hs', append_append|].
      unfold executed, creates in *. cbn [fst snd] in *. rewrite !count_app.
      destruct (snd (writeEach _ _ _ _ _)); cbn [length]; [lia|lia|done].
    + exists events. split; [done|]. cbn [length fst snd]. lia.
Qed.

(** X13. A list of objects is given up at the first object that fails.
    When [_createAndWriteObjects] is rejected, fewer objects than it was
    given were executed, and no [CREATE] was issued for an object after the
    one that failed: at most three for each object executed and three for
    the one that failed. *)
Theorem createAndWriteObjects_stops (objects : list (list byte))
    (type : ObjectType) (offset crc32 : Z) (w : World) (s s' : State)
    (error : JsError) :
  _createAndWriteObjects objects type offset crc32 w s = (s', Rejected error) ->
  (executed (added s s') < length objects)%nat
  /\ (creates (added s s') <= 3 * (executed (added s s') + 1))%nat.
Proof.
  intros Hrun. rewrite createAndWriteObjects_each in Hrun.
  pose proof (adds_added _ _ _
                (writeEach_stops objects type (Progress.make offset crc32) w s))
    as Hstops.
  by rewrite Hrun in Hstops.
Qed.

Lemma createAndWriteObjects_stops_witness :
  let w :=
    hesitating (DfuError ABORTED "Aborted") (SelectResponse.make 2 0 0) in
  let s' := fst (_createAndWriteObjects [[x01; x02]; [x03; x04]; [x05]]%byte
                   DATA 0 0 w fresh) in
  (executed (added fresh s') < 3)%nat
  /\ (creates (added fresh s') <= 3 * (executed (added fresh s') + 1))%nat.
Proof.
  cbv zeta.
  apply (createAndWriteObjects_stops [[x01; x02]; [x03; x04]; [x05]]%byte
           DATA 0 0
           (hesitating (DfuError ABORTED "Aborted") (SelectResponse.make 2 0 0))
           fresh _ (DfuError ABORTED "Aborted")).
  vm_compute. reflexivity.
Defined.

End MoreObjects.

(** ** What the send operations issue, and when *)

Section MoreOrder.
Import DfuConstants Promise DfuTransport.

Lemma adding_emit (P : Event -> bool) stage offset :
  P (ProgressUpdate stage offset) = true -> adding P (emit stage offset).
Proof.
  intros HP. by apply (adding_one _ _ (fun _ _ => ProgressUpdate stage offset)).
Qed.

Lemma adding_open (P : Event -> bool) :
  (forall id ack error,
     P (StartCharacteristicsNotifications id ack error) = true) ->
  adding P _open.
Proof.
  intros HP w s. unfold _open. destruct (_isOpen s).
  - exists []. by rewrite append_nil.
  - eexists. split; [reflexivity|]. cbn [forallb]. by rewrite HP.
Qed.

Lemma adding_writeObject (P : Event -> bool) data type offset crc32 :
  (forall answer, P (WriteObject data type offset crc32 answer) = true) ->
  (forall ev, isCheck ev = true -> P ev = true) ->
  adding P (_writeObject data type offset crc32).
Proof.
  intros Hwrite Hcheck. unfold _writeObject.
  apply adding_bind.
  { by apply (adding_one _ _ (fun w s =>
      WriteObject data type offset crc32
        (objectWriter_writeObject w (log s) data type offset crc32))). }
  intros progress. apply adding_bind.
  { unfold _validateProgress. apply adding_bind.
    { apply (adding_one _ _ (fun w s =>
        CalculateChecksum (controlPointService_calculateChecksum w (log s))));
        [done|]. intros. by apply Hcheck. }
    intros response.
    repeat (destruct (negb _); [apply adding_reject|]). apply adding_resolve. }
  intros _. apply adding_bind; [|intros _; apply adding_resolve].
  apply (adding_one _ _ (fun w s =>
    Execute (controlPointService_execute w (log s)))); [done|].
  intros. by apply Hcheck.
Qed.

Lemma adding_tryWrite (P : Event -> bool) fuel attempts data type offset crc32 :
  (forall error, P (CreateObject type (Js.length data) error) = true) ->
  (forall answer, P (WriteObject data type offset crc32 answer) = true) ->
  (forall ev, isCheck ev = true -> P ev = true) ->
  adding P (tryWrite fuel attempts data type offset crc32).
Proof.
  intros Hcreate Hwrite Hcheck.
  assert (adding P (attempt data type offset crc32)) as Hattempt.
  { unfold attempt. apply adding_bind; [|intros _; by apply adding_writeObject].
    by apply (adding_one _ _ (fun w s =>
      CreateObject type (Js.length data)
        (controlPointService_createObject w (log s) type (Js.length data)))). }
  revert attempts. induction fuel as [|fuel IH]; intros attempts w s;
    rewrite tryWrite_unfold;
    destruct (Hattempt w s) as (events & Hs & HP);
    destruct (attempt data type offset crc32 w s) as [s' [p|e|]];
    cbn [fst] in Hs; subst s'; try (by exists events).
  - destruct (_shouldRetry _ _); by exists events.
  - destruct (_shouldRetry _ _); [|by exists events].
    destruct (IH (attempts + 1) w (append events s)) as (more & Hs' & HP').
    exists (events ++ more).
    by rewrite Hs', append_append, forallb_app, HP, HP'.
Qed.

Lemma adding_createAndWriteObjects (P : Event -> bool) objects type offset crc32 :
  (forall size error, P (CreateObject type size error) = true) ->
  (forall data o c answer, P (WriteObject data type o c answer) = true) ->
  (forall ev, isCheck ev = true -> P ev = true) ->
  adding P (_createAndWriteObjects objects type offset crc32).
Proof.
  intros Hcreate Hwrite Hcheck w s. rewrite createAndWriteObjects_each.
  generalize (Progress.make offset crc32). revert w s.
  induction objects as [|object objects IH]; intros w s progress.
  - by apply adding_resolve.
  - cbn [writeEach]. revert w s. apply adding_bind.
    + by apply adding_tryWrite.
    + intros p w s. apply IH.
Qed.

Lemma typed_check (type : ObjectType) (ev : Event) :
  isCheck ev = true -> typed type ev = true.
Proof. by destruct ev. Qed.

(** X14. [sendInitPacket] names no other object type than [Command], and
    [sendFirmware] no other than [Data]: in every [SELECT], [CREATE] and
    write that they issue. *)
Theorem send_names_one_type (payload : list byte) (w : World) (s : State) :
  forallb (typed COMMAND) (added s (fst (sendInitPacket payload w s))) = true
  /\ forallb (typed DATA) (added s (fst (sendFirmware payload w s))) = true.
Proof.
  assert (forall type (c : M Progress.t),
            adding (typed type) c ->
            forallb (typed type) (added s (fst (c w s))) = true) as Hadded.
  { intros type c Hc. destruct (Hc w s) as (events & -> & HP).
    by rewrite added_append. }
  split; apply Hadded.
  - unfold sendInitPacket. cbv zeta.
    apply adding_bind; [by apply adding_emit|]. intros _.
    apply adding_bind; [by apply adding_open|]. intros _.
    apply adding_bind.
    { by apply (adding_one _ _ (fun w s =>
        SelectObject COMMAND (controlPointService_selectObject w (log s) COMMAND))). }
    intros response. apply adding_bind.
    { unfold _validateInitPacketSize.
      destruct (_ >? _); [apply adding_reject | apply adding_resolve]. }
    intros _. destruct (_canResumePartiallyWrittenObject _ _ _).
    + apply adding_bind; [by apply adding_emit|]. intros _.
      apply adding_writeObject; [done | apply typed_check].
    + apply adding_tryWrite; [done | done | apply typed_check].
  - unfold sendFirmware. cbv zeta.
    apply adding_bind; [by apply adding_emit|]. intros _.
    apply adding_bind; [by apply adding_open|]. intros _.
    apply adding_bind.
    { by apply (adding_one _ _ (fun w s =>
        SelectObject DATA (controlPointService_selectObject w (log s) DATA))). }
    intros response. destruct (_ >? _).
    + apply adding_bind; [by apply adding_emit|]. intros _.
      apply adding_bind;
        [apply adding_writeObject; [done | apply typed_check]|].
      intros progress.
      apply adding_createAndWriteObjects; [done | done | apply typed_check].
    + apply adding_createAndWriteObjects; [done | done | apply typed_check].
Qed.

(** What follows [SELECT] in a send operation adds events to the log. *)
Lemma flows_add (payload : list byte) (response : SelectResponse.t) :
  adding (fun _ => true) (initPacketFlow payload response)
  /\ adding (fun _ => true) (firmwareFlow payload response).
Proof.
  split.
  - unfold initPacketFlow. cbv zeta. apply adding_bind.
    { unfold _validateInitPacketSize.
      destruct (_ >? _); [apply adding_reject | apply adding_resolve]. }
    intros _. destruct (_canResumePartiallyWrittenObject _ _ _).
    + apply adding_bind; [by apply adding_emit|]. intros _.
      by apply adding_writeObject.
    + by apply adding_tryWrite.
  - unfold firmwareFlow. cbv zeta. destruct (_ >? _).
    + apply adding_bind; [by apply adding_emit|]. intros _.
      apply adding_bind; [by apply adding_writeObject|]. intros progress.
      by apply adding_createAndWriteObjects.
    + by apply adding_createAndWriteObjects.
Qed.

Lemma open_cases (w : World) (s : State) :
  (_isOpen s = true /\ _open w s = (s, Resolved tt))
  \/ (_isOpen s = false
      /\ exists error,
          _open w s
          = (append [StartCharacteristicsNotifications
                       (_controlPointCharacteristicId s) false error] s,
             match error with
             | Some error =>
                 Rejected (createError NOTIFICATION_START_ERROR (message error))
             | None => Resolved tt
             end)).
Proof.
  unfold _open. destruct (_isOpen s); [by left|]. right. eauto.
Qed.

(** The log of a send operation, for any continuation after [SELECT]. *)
Lemma selecting_then (type : ObjectType) (flow : SelectResponse.t -> M Progress.t)
    (w : World) (s : State) :
  (forall response, adding (fun _ => true) (flow response)) ->
  let events := added s (fst (bind (selecting type) flow w s)) in
  count isObjectEvent events = 0%nat
  \/ exists before response rest,
       events = before ++ SelectObject type (inr response) :: rest
       /\ count isObjectEvent before = 0%nat
       /\ (_isOpen s = false ->
           In (StartCharacteristicsNotifications
                 (_controlPointCharacteristicId s) false None) before).
Proof.
  intros Hflow. cbv zeta.
  remember (bind (selecting type) flow w s) as run eqn:Hrun.
  unfold bind in Hrun. rewrite selecting_run in Hrun. cbv zeta in Hrun.
  set (initialize := ProgressUpdate ("Initializing " +:+ _getObjectTypeString type) 0)
    in Hrun.
  destruct (open_cases w (append [initialize] s))
    as [[Hopen Ho]|[Hopen [[error|] Ho]]]; rewrite Ho in Hrun; clear Ho.
  - destruct (controlPointService_selectObject w _ type) as [error|response];
      [left; subst run; cbn [fst]; by rewrite append_append, added_append|].
    right. destruct (Hflow response w
                       (append [SelectObject type (inr response)]
                          (append [initialize] s))) as (rest & Hrest & _).
    exists [initialize], response, rest. subst run.
    rewrite Hrest, !append_append, added_append.
    split; [reflexivity|]. split; [done|]. intros Hclosed.
    rewrite isOpen_append in Hopen. congruence.
  - left. subst run. cbn [fst]. by rewrite append_append, added_append.
  - destruct (controlPointService_selectObject w _ type) as [error|response];
      [left; subst run; cbn [fst]; by rewrite !append_append, added_append|].
    right. destruct (Hflow response w
                       (append [SelectObject type (inr response)]
                          (append [StartCharacteristicsNotifications
                              (_controlPointCharacteristicId
                                 (append [initialize] s)) false None]
                             (append [initialize] s)))) as (rest & Hrest & _).
    exists [initialize;
            StartCharacteristicsNotifications
              (_controlPointCharacteristicId s) false None],
      response, rest. subst run.
    rewrite Hrest, !append_append, added_append.
    split; [reflexivity|]. split; [done|]. intros _. cbn. tauto.
Qed.

(** X15. Nothing is done to an object before [SELECT] has succeeded.  When
    a send operation issues a [CREATE], a write, a [CALCULATE_CRC] or an
    [EXECUTE], the first of them follows a [SELECT] for the object type of
    the operation that succeeded, and on a transport whose [_isOpen] is
    false the notifications of the control point were started without
    error before it. *)
Theorem send_selects_first (payload : list byte) (w : World) (s : State) :
  let follows type events :=
    count isObjectEvent events = 0%nat
    \/ exists before response rest,
         events = before ++ SelectObject type (inr response) :: rest
         /\ count isObjectEvent before = 0%nat
         /\ (_isOpen s = false ->
             In (StartCharacteristicsNotifications
                   (_controlPointCharacteristicId s) false None) before) in
  follows COMMAND (added s (fst (sendInitPacket payload w s)))
  /\ follows DATA (added s (fst (sendFirmware payload w s))).
Proof.
  cbv zeta. split.
  - rewrite sendInitPacket_run. apply selecting_then.
    intros response. apply flows_add.
  - rewrite sendFirmware_flow. apply selecting_then.
    intros response. apply flows_add.
Qed.

End MoreOrder.

(** ** The device of a [Dfu] object *)

Section Device.
Import DfuConstants DfuObject.

Lemma getCharacteristic_firstWith
    (characteristics : list (string * GattCharacteristic.t)) (uuid : string) :
  _getCharacteristic characteristics uuid
  = match firstWith GattCharacteristic.uuid uuid characteristics with
    | Some (id, _) => inr id
    | None => inl (PlainError ("Could not find characteristic: " +:+ uuid))
    end.
Proof.
  induction characteristics as [|[id c] cs IH]; [done|].
  cbn [_getCharacteristic]. unfold firstWith. cbn [List.find snd].
  by destruct (String.eqb (GattCharacteristic.uuid c) uuid).
Qed.

Lemma firstWith_Some {A} (uuidOf : A -> string) (uuid : string)
    (entries : list (string * A)) (id : string) (a : A) :
  firstWith uuidOf uuid entries = Some (id, a)
  <-> exists before after,
        entries = before ++ (id, a) :: after
        /\ uuidOf a = uuid
        /\ Forall (fun entry => uuidOf entry.2 <> uuid) before.
Proof.
  unfold firstWith. induction entries as [|[k v] entries IH].
  - split; [done|]. intros (before & after & Heq & _). by destruct before.
  - cbn [List.find snd]. destruct (String.eqb_spec (uuidOf v) uuid) as [Hv|Hv].
    + split.
      * intros [= -> ->]. exists [], entries. by repeat split.
      * intros (before & after & Heq & Ha & Hbefore).
        destruct before as [|[k' v'] before].
        -- by injection Heq as -> ->.
        -- injection Heq as -> -> _. by inversion Hbefore.
    + rewrite IH. split.
      * intros (before & after & -> & Ha & Hbefore).
        exists ((k, v) :: before), after. split; [done|]. split; [done|].
        by constructor.
      * intros (before & after & Heq & Ha & Hbefore).
        destruct before as [|[k' v'] before].
        -- injection Heq as -> -> _. done.
        -- injection Heq as -> -> ->. exists before, after.
           split; [done|]. split; [done|]. by inversion Hbefore.
Qed.

Lemma firstWith_None {A} (uuidOf : A -> string) (uuid : string)
    (entries : list (string * A)) :
  firstWith uuidOf uuid entries = None
  <-> Forall (fun entry => uuidOf entry.2 <> uuid) entries.
Proof.
  unfold firstWith. induction entries as [|[k v] entries IH].
  - split; [by constructor|done].
  - cbn [List.find snd]. destruct (String.eqb_spec (uuidOf v) uuid) as [Hv|Hv].
    + split; [done|]. by inversion 1.
    + rewrite IH. split; [by constructor|by inversion 1].
Qed.

(** X16. [_getCharacteristic] returns the id of the first characteristic
    with the UUID, in the order of the object; it throws exactly when no
    characteristic has the UUID. *)
Theorem getCharacteristic_first
    (characteristics : list (string * GattCharacteristic.t)) (uuid : string) :
  (forall id,
     _getCharacteristic characteristics uuid = inr id
     <-> exists before characteristic after,
           characteristics = before ++ (id, characteristic) :: after
           /\ GattCharacteristic.uuid characteristic = uuid
           /\ Forall (fun entry => GattCharacteristic.uuid entry.2 <> uuid)
                before)
  /\ (_getCharacteristic characteristics uuid
      = inl (PlainError ("Could not find characteristic: " +:+ uuid))
      <-> Forall (fun entry => GattCharacteristic.uuid entry.2 <> uuid)
            characteristics)
  /\ (forall err,
        _getCharacteristic characteristics uuid = inl err ->
        err = PlainError ("Could not find characteristic: " +:+ uuid)).
Proof.
  rewrite getCharacteristic_firstWith. split; [|split].
  - intros id. split.
    + destruct (firstWith _ _ _) as [[k c]|] eqn:Hfirst; [|done].
      intros [= ->]. apply firstWith_Some in Hfirst.
      destruct Hfirst as (before & after & ? & ? & ?). by exists before, c, after.
    + intros (before & c & after & Heq & Hc & Hbefore).
      assert (firstWith GattCharacteristic.uuid uuid characteristics
              = Some (id, c)) as ->; [|done].
      apply firstWith_Some. by exists before, after.
  - rewrite <- firstWith_None. by destruct (firstWith _ _ _) as [[k c]|].
  - intros err. destruct (firstWith _ _ _) as [[k c]|]; [done|]. by intros [= <-].
Qed.

Lemma getCharacteristics_run (serviceUUID instanceId : string) (s : State)
    (adapter : Adapter) :
  _adapter s = Some adapter ->
  _getCharacteristics serviceUUID instanceId s
  = (record (GetAttributes instanceId
               (getAttributes adapter (log s) instanceId)) s,
     match getAttributes adapter (log s) instanceId with
     | inl err => inl (Because err)
     | inr data =>
         match firstWith GattService.uuid serviceUUID data with
         | Some (_, service) => inr (GattService.characteristics service)
         | None => inl (Saying ("Could not find service: " +:+ serviceUUID))
         end
     end).
Proof.
  intros Hadapter. unfold _getCharacteristics, _getAttributes.
  rewrite Hadapter.
  destruct (getAttributes adapter (log s) instanceId) as [err|data]; [done|].
  f_equal. unfold firstWith.
  induction data as [|[id service] data IH]; [done|].
  cbn [flat_map List.find snd].
  destruct (String.eqb (GattService.uuid service) serviceUUID); [done|].
  cbn [app]. apply IH.
Qed.

(** X17. The promise of [_getCharacteristics] is settled once.  With an
    adapter, [getAttributes] is called once; an error of it is passed on;
    otherwise the promise is resolved with the characteristics of the first
    service with the UUID, although [reject] is called after the loop in
    any case, and rejected with a string, not an [Error], when no service
    has the UUID. *)
Theorem getCharacteristics_settles_once (serviceUUID instanceId : string)
    (s : State) (adapter : Adapter) :
  _adapter s = Some adapter ->
  let answer := getAttributes adapter (log s) instanceId in
  _getCharacteristics serviceUUID instanceId s
  = (record (GetAttributes instanceId answer) s,
     match answer with
     | inl err => inl (Because err)
     | inr data =>
         match firstWith GattService.uuid serviceUUID data with
         | Some (_, service) => inr (GattService.characteristics service)
         | None => inl (Saying ("Could not find service: " +:+ serviceUUID))
         end
     end).
Proof. intros Hadapter answer. by apply getCharacteristics_run. Qed.

Lemma getCharacteristics_settles_once_witness :
  _getCharacteristics SECURE_DFU_SERVICE_UUID "device"
    (constructor (Some (adapterOf (device ++ device))))
  = (record (GetAttributes "device" (inr (device ++ device)))
       (constructor (Some (adapterOf (device ++ device)))),
     inr [("characteristic.2",
           GattCharacteristic.make SECURE_DFU_PACKET_UUID);
          ("characteristic.3",
           GattCharacteristic.make SECURE_DFU_CONTROL_POINT_UUID)]).
Proof.
  apply (getCharacteristics_settles_once SECURE_DFU_SERVICE_UUID "device"
           (constructor (Some (adapterOf (device ++ device))))
           (adapterOf (device ++ device)) eq_refl).
Defined.

Lemma setupCharacteristics_run
    (characteristics : list (string * GattCharacteristic.t))
    (adapter : option Adapter) (zipFilePath instanceId : option string)
    (controlPoint packet : option string) (events : list Event) :
  let s :=
    {| _adapter := adapter; _zipFilePath := zipFilePath;
       _instanceId := instanceId;
       _controlPointCharacteristicId := controlPoint;
       _packetCharacteristicId := packet; log := events |} in
  let state controlPoint packet events :=
    {| _adapter := adapter; _zipFilePath := zipFilePath;
       _instanceId := instanceId;
       _controlPointCharacteristicId := controlPoint;
       _packetCharacteristicId := packet; log := events |} in
  _setupCharacteristics characteristics s
  = match _getCharacteristic characteristics SECURE_DFU_CONTROL_POINT_UUID with
    | inl err => (s, inl (Because err))
    | inr cp =>
        match _getCharacteristic characteristics SECURE_DFU_PACKET_UUID with
        | inl err => (state (Some cp) packet events, inl (Because err))
        | inr pk =>
            match adapter with
            | None =>
                (state (Some cp) (Some pk) events,
                 inl (Because
                        (TypeError "Cannot read property 'startCharacteristicsNotifications' of null")))
            | Some a =>
                match startCharacteristicsNotifications a events cp false with
                | Some err =>
                    (state (Some cp) (Some pk)
                       (events
                        ++ [StartCharacteristicsNotifications cp false (Some err)]),
                     inl (Because err))
                | None =>
                    (state (Some cp) (Some pk)
                       (events
                        ++ [StartCharacteristicsNotifications cp false None; On]),
                     inr tt)
                end
            end
        end
    end.
Proof.
  cbv zeta. unfold _setupCharacteristics.
  destruct (_getCharacteristic characteristics SECURE_DFU_CONTROL_POINT_UUID)
    as [err|cp]; [done|].
  destruct (_getCharacteristic characteristics SECURE_DFU_PACKET_UUID)
    as [err|pk]; [done|].
  cbn. destruct adapter as [a|]; [|done].
  destruct (startCharacteristicsNotifications a events cp false); [done|].
  unfold record. cbn. by rewrite <- app_assoc.
Qed.

(** X18. [_initDFU] emits one event, and emits it last: [initialized] or
    [error].  It emits [initialized] exactly after it has found the first
    DFU service of the device and both characteristics in it, started the
    notifications of the control point without error and registered its
    listener; the ids of the two characteristics are then those of the
    object.  When it emits [error], no listener was registered. *)
Theorem initDFU_emits_once (instanceId : string) (s : State) :
  let s' := _initDFU instanceId s in
  exists events final,
    log s' = log s ++ events ++ [final]
    /\ forallb (fun ev => negb (isEmit ev)) events = true
    /\ match final with
       | EmitInitialized =>
           exists data id service controlPoint packet,
             firstWith GattService.uuid SECURE_DFU_SERVICE_UUID data
             = Some (id, service)
             /\ _getCharacteristic (GattService.characteristics service)
                  SECURE_DFU_CONTROL_POINT_UUID = inr controlPoint
             /\ _getCharacteristic (GattService.characteristics service)
                  SECURE_DFU_PACKET_UUID = inr packet
             /\ events
                = [GetAttributes instanceId (inr data);
                   StartCharacteristicsNotifications controlPoint false None;
                   On]
             /\ _controlPointCharacteristicId s' = Some controlPoint
             /\ _packetCharacteristicId s' = Some packet
       | EmitError _ => forallb (fun ev => negb (isOn ev)) events = true
       | _ => False
       end.
Proof.
  destruct s as [adapter zipFilePath instance controlPoint packet events].
  cbv zeta. unfold _initDFU. destruct adapter as [a|].
  2:{ exists [], (EmitError (Because
                   (TypeError "Cannot read property 'getAttributes' of null"))).
      by cbn. }
  erewrite getCharacteristics_run by reflexivity. cbn [log].
  destruct (getAttributes a events instanceId) as [err|data] eqn:Hanswer.
  { exists [GetAttributes instanceId (inl err)], (EmitError (Because err)).
    cbn. by rewrite <- app_assoc. }
  destruct (firstWith GattService.uuid SECURE_DFU_SERVICE_UUID data)
    as [[id service]|] eqn:Hservice.
  2:{ eexists [GetAttributes instanceId (inr data)], (EmitError _).
      cbn. by rewrite <- app_assoc. }
  unfold record. cbn [_adapter _zipFilePath _instanceId
    _controlPointCharacteristicId _packetCharacteristicId log].
  rewrite setupCharacteristics_run.
  destruct (_getCharacteristic (GattService.characteristics service)
              SECURE_DFU_CONTROL_POINT_UUID) as [err|cp] eqn:Hcp.
  { exists [GetAttributes instanceId (inr data)], (EmitError (Because err)).
    cbn. by rewrite <- app_assoc. }
  destruct (_getCharacteristic (GattService.characteristics service)
              SECURE_DFU_PACKET_UUID) as [err|pk] eqn:Hpk.
  { exists [GetAttributes instanceId (inr data)], (EmitError (Because err)).
    cbn. by rewrite <- app_assoc. }
  destruct (startCharacteristicsNotifications a
              (events ++ [GetAttributes instanceId (inr data)]) cp false)
    as [err|] eqn:Hstart.
  { exists [GetAttributes instanceId (inr data);
            StartCharacteristicsNotifications cp false (Some err)],
      (EmitError (Because err)).
    cbn. by rewrite <- !app_assoc. }
  exists [GetAttributes instanceId (inr data);
          StartCharacteristicsNotifications cp false None; On],
    EmitInitialized.
  cbn. rewrite <- !app_assoc. split; [done|]. split; [done|].
  by exists data, id, service, cp, pk.
Qed.

(** X19. A control point that was found stays the control point of the
    object when [_initDFU] fails after it.  When the DFU service has the
    control point but not the packet characteristic, [_initDFU] emits the
    error of the missing characteristic, the id of the control point is
    set, and the id of the packet characteristic is as it was. *)
Theorem initDFU_keeps_control_point (instanceId : string) (s : State)
    (adapter : Adapter) (data : list (string * GattService.t))
    (id controlPoint : string) (service : GattService.t) :
  _adapter s = Some adapter ->
  getAttributes adapter (log s) instanceId = inr data ->
  firstWith GattService.uuid SECURE_DFU_SERVICE_UUID data = Some (id, service) ->
  _getCharacteristic (GattService.characteristics service)
    SECURE_DFU_CONTROL_POINT_UUID = inr controlPoint ->
  Forall (fun entry => GattCharacteristic.uuid entry.2 <> SECURE_DFU_PACKET_UUID)
    (GattService.characteristics service) ->
  let s' := _initDFU instanceId s in
  _controlPointCharacteristicId s' = Some controlPoint
  /\ _packetCharacteristicId s' = _packetCharacteristicId s
  /\ log s'
     = log s
       ++ [GetAttributes instanceId (inr data);
           EmitError
             (Because
                (PlainError
                   ("Could not find characteristic: " +:+ SECURE_DFU_PACKET_UUID)))].
Proof.
  destruct s as [adapter' zipFilePath instance controlPoint' packet events].
  cbn [_adapter log _packetCharacteristicId].
  intros -> Hanswer Hservice Hcp Hpk. cbv zeta. unfold _initDFU.
  erewrite getCharacteristics_run by reflexivity. cbn [log].
  rewrite Hanswer, Hservice. unfold record.
  cbn [_adapter _zipFilePath _instanceId
    _controlPointCharacteristicId _packetCharacteristicId log].
  rewrite setupCharacteristics_run, Hcp.
  rewrite getCharacteristic_firstWith.
  apply firstWith_None in Hpk. rewrite Hpk.
  cbn. by rewrite <- app_assoc.
Qed.

Lemma initDFU_keeps_control_point_witness :
  let s' := _initDFU "device" (constructor (Some (adapterOf deviceWithoutPacket))) in
  _controlPointCharacteristicId s' = Some "characteristic.3"
  /\ _packetCharacteristicId s' = None
  /\ log s'
     = [GetAttributes "device" (inr deviceWithoutPacket);
        EmitError
          (Because
             (PlainError
                ("Could not find characteristic: " +:+ SECURE_DFU_PACKET_UUID)))].
Proof.
  apply (initDFU_keeps_control_point "device"
           (constructor (Some (adapterOf deviceWithoutPacket)))
           (adapterOf deviceWithoutPacket) deviceWithoutPacket
           "service.2" "characteristic.3"
           (GattService.make SECURE_DFU_SERVICE_UUID
              [("characteristic.3",
                GattCharacteristic.make SECURE_DFU_CONTROL_POINT_UUID)])
           eq_refl eq_refl eq_refl eq_refl).
  repeat constructor. cbn. discriminate.
Defined.

(** X20. [_uninitDFU] after [_initDFU], on an object with an adapter.  It
    stops the notifications of the characteristic that is the control
    point by then, which is the one they were started for when [_initDFU]
    emitted [initialized]; it removes the listener whether or not one was
    registered; it prints its message whether or not stopping failed; and
    it leaves both ids [null], so that no notification is forwarded
    afterwards.  Without an adapter it throws and leaves the object as it
    is. *)
Theorem uninitDFU_after_initDFU (instanceId : string) (s : State) :
  let s' := _initDFU instanceId s in
  match _adapter s with
  | Some adapter =>
      exists s'' err,
        _uninitDFU s' = inr s''
        /\ log s''
           = log s'
             ++ [StopCharacteristicsNotifications
                   (_controlPointCharacteristicId s') err;
                 RemoveListener;
                 ConsoleLog
                   [PrintString "Can not stop characteristics notifications: ";
                    match err with
                    | Some err => PrintError err
                    | None => PrintUndefined
                    end]]
        /\ (forall controlPoint,
              In (StartCharacteristicsNotifications controlPoint false None)
                (drop (length (log s)) (log s')) ->
              _controlPointCharacteristicId s' = Some controlPoint)
        /\ _controlPointCharacteristicId s'' = None
        /\ _packetCharacteristicId s'' = None
        /\ _adapter s'' = Some adapter
        /\ forall id value, _forwardControlPointResponse id value s'' = s''
  | None => exists err, _uninitDFU s' = inl err
  end.
Proof.
  destruct s as [adapter zipFilePath instance controlPoint packet events].
  cbv zeta. cbn [_adapter]. destruct adapter as [a|]; [|by eexists].
  assert (_adapter (_initDFU instanceId
            {| _adapter := Some a; _zipFilePath := zipFilePath;
               _instanceId := instance;
               _controlPointCharacteristicId := controlPoint;
               _packetCharacteristicId := packet; log := events |}) = Some a
          /\ forall cp,
               In (StartCharacteristicsNotifications cp false None)
                 (drop (length events)
                    (log (_initDFU instanceId
                       {| _adapter := Some a; _zipFilePath := zipFilePath;
                          _instanceId := instance;
                          _controlPointCharacteristicId := controlPoint;
                          _packetCharacteristicId := packet; log := events |}))) ->
               _controlPointCharacteristicId (_initDFU instanceId
                 {| _adapter := Some a; _zipFilePath := zipFilePath;
                    _instanceId := instance;
                    _controlPointCharacteristicId := controlPoint;
                    _packetCharacteristicId := packet; log := events |})
               = Some cp) as [Hadapter Hstarted].
  { unfold _initDFU. erewrite getCharacteristics_run by reflexivity. cbn [log].
    destruct (getAttributes a events instanceId) as [err|data].
    { cbn. split; [done|]. intros cp. rewrite <- ?app_assoc, drop_app_length. cbn.
      intuition discriminate. }
    destruct (firstWith GattService.uuid SECURE_DFU_SERVICE_UUID data)
      as [[id service]|].
    2:{ cbn. split; [done|]. intros cp. rewrite <- ?app_assoc, drop_app_length. cbn.
        intuition discriminate. }
    unfold record. cbn [_adapter _zipFilePath _instanceId
      _controlPointCharacteristicId _packetCharacteristicId log].
    rewrite setupCharacteristics_run.
    destruct (_getCharacteristic (GattService.characteristics service)
                SECURE_DFU_CONTROL_POINT_UUID) as [err|cp'].
    { cbn. split; [done|]. intros cp. rewrite <- ?app_assoc, drop_app_length.
      cbn. intuition discriminate. }
    destruct (_getCharacteristic (GattService.characteristics service)
                SECURE_DFU_PACKET_UUID) as [err|pk].
    { cbn. split; [done|]. intros cp. rewrite <- ?app_assoc, drop_app_length.
      cbn. intuition discriminate. }
    destruct (startCharacteristicsNotifications a
                (events ++ [GetAttributes instanceId (inr data)]) cp' false)
      as [err|].
    { cbn. split; [done|]. intros cp. rewrite <- ?app_assoc, drop_app_length.
      cbn. intuition discriminate. }
    cbn. split; [done|]. intros cp. rewrite <- ?app_assoc, drop_app_length.
    cbn. intros [|[H|[|[|[]]]]]; try discriminate. by injection H as ->. }
  unfold _uninitDFU. rewrite Hadapter.
  eexists _, _. split; [reflexivity|]. cbn.
  rewrite <- !app_assoc. split; [done|]. split; [exact Hstarted|].
  split; [done|]. split; [done|]. split; [done|].
  intros id value. unfold _forwardControlPointResponse. cbn.
  by rewrite bool_decide_eq_false_2.
Qed.

End Device.

(** ** More on the update package, and [performDFU] *)

Section MorePackage.
Import DfuConstants Dfu DfuObject.

Lemma eqb_empty (text : string) : text <> "" -> String.eqb text "" = false.
Proof. intros Htext. by apply String.eqb_neq. Qed.

Lemma length_empty (text : string) :
  text <> "" -> (String.length text =? 0)%nat = false.
Proof. intros Htext. destruct text; [done|]. reflexivity. Qed.

(** What [getManifest] does with a path that is a string and not empty. *)
Lemma getManifest_calls (p : Platform) (zipFilePath : string) :
  zipFilePath <> "" ->
  getManifest p (Some (Json.String zipFilePath))
  = {| thrown := None;
       reads := [zipFilePath];
       calls :=
         match fs_readFile p zipFilePath with
         | inl err => [inl err]
         | inr data =>
             match JSZip_loadAsync p data with
             | inl err => [inl err]
             | inr zip =>
                 match zip !! "manifest.json" with
                 | None =>
                     [inl (TypeError "Cannot read property 'async' of null")]
                 | Some (inl err) => [inl err]
                 | Some (inr text) =>
                     match JSON_parse p text with
                     | inl err => [inl err]
                     | inr json =>
                         match Json.get (Some json) "manifest" with
                         | inl err => [inl err]
                         | inr manifest => [inr manifest]
                         end
                     end
                 end
             end
         end |}.
Proof.
  intros Hpath. unfold getManifest, _loadZip. rewrite (length_empty _ Hpath).
  destruct (fs_readFile p zipFilePath) as [err|data]; [done|].
  destruct (JSZip_loadAsync p data) as [err|zip]; [done|].
  destruct (zip !! "manifest.json") as [[err|text]|]; [done| |done].
  destruct (JSON_parse p text) as [err|json]; [done|].
  by destruct (Json.get (Some json) "manifest").
Qed.

(** X21. [getManifest] calls its callback once, whatever the platform
    answers: for every path that is a string and not empty it does not
    throw, asks for the file once, and makes one call of the callback, with
    an error or with the manifest. *)
Theorem getManifest_calls_back_once (p : Platform) (zipFilePath : string) :
  zipFilePath <> "" ->
  let run := getManifest p (Some (Json.String zipFilePath)) in
  thrown run = None
  /\ reads run = [zipFilePath]
  /\ exists answer,
       calls run = [answer]
       /\ _getManifestAsync p (Some (Json.String zipFilePath))
          = match answer with
            | inl err => RejectedWith err
            | inr manifest => Fulfilled manifest
            end.
Proof.
  intros Hpath. cbv zeta. unfold _getManifestAsync, promisify.
  rewrite (getManifest_calls p _ Hpath). cbn [thrown reads calls].
  split; [done|]. split; [done|].
  destruct (fs_readFile p zipFilePath) as [err|data]; [by eexists|].
  destruct (JSZip_loadAsync p data) as [err|zip]; [by eexists|].
  destruct (zip !! "manifest.json") as [[err|text]|]; [by eexists| |by eexists].
  destruct (JSON_parse p text) as [err|json]; [by eexists|].
  destruct (Json.get (Some json) "manifest"); by eexists.
Qed.

Lemma getManifest_calls_back_once_witness :
  let run :=
    getManifest (unreadable (PlainError "ENOENT")) (Some (Json.String "dfu.zip")) in
  thrown run = None
  /\ reads run = ["dfu.zip"]
  /\ exists answer,
       calls run = [answer]
       /\ _getManifestAsync (unreadable (PlainError "ENOENT"))
            (Some (Json.String "dfu.zip"))
          = match answer with
            | inl err => RejectedWith err
            | inr manifest => Fulfilled manifest
            end.
Proof.
  apply (getManifest_calls_back_once (unreadable (PlainError "ENOENT"))
           "dfu.zip").
  discriminate.
Defined.

(** X22. An error of the platform is passed on as it is.  When the file
    cannot be read, when the archive cannot be loaded, or when
    [manifest.json] cannot be read from the archive, the callback of
    [getManifest] is called with that error and [_fetchUpdates] is rejected
    with it. *)
Theorem fetchUpdates_io_error (p : Platform) (zipFilePath : string) :
  zipFilePath <> "" ->
  let path := Some (Json.String zipFilePath) in
  (forall err,
     fs_readFile p zipFilePath = inl err ->
     calls (getManifest p path) = [inl err]
     /\ _fetchUpdates p zipFilePath = RejectedWith err)
  /\ (forall data err,
        fs_readFile p zipFilePath = inr data ->
        JSZip_loadAsync p data = inl err ->
        calls (getManifest p path) = [inl err]
        /\ _fetchUpdates p zipFilePath = RejectedWith err)
  /\ (forall data zip err,
        fs_readFile p zipFilePath = inr data ->
        JSZip_loadAsync p data = inr zip ->
        zip !! "manifest.json" = Some (inl err) ->
        calls (getManifest p path) = [inl err]
        /\ _fetchUpdates p zipFilePath = RejectedWith err).
Proof.
  intros Hpath path. unfold _fetchUpdates, _getManifestAsync, promisify.
  fold path. unfold path. rewrite (getManifest_calls p _ Hpath).
  cbn [thrown calls]. unfold _loadZipAsync, _loadZip, promisify.
  split; [|split].
  - intros err Hread. by rewrite Hread.
  - intros data err Hread Hload. by rewrite Hread, Hload.
  - intros data zip err Hread Hload Hfile. by rewrite Hread, Hload, Hfile.
Qed.

Lemma fetchUpdates_io_error_witness :
  _fetchUpdates (unreadable (PlainError "ENOENT")) "dfu.zip"
  = RejectedWith (PlainError "ENOENT").
Proof.
  apply (proj1 (fetchUpdates_io_error (unreadable (PlainError "ENOENT"))
                  "dfu.zip" ltac:(discriminate))).
  reflexivity.
Defined.

Lemma promiseChain_undefined (zip : ZipObject) (updates : list Update) :
  promiseChain zip None updateTypes updates
  = inl (TypeError "Cannot read property 'softdevice' of undefined").
Proof. reflexivity. Qed.

Lemma promiseChain_null (zip : ZipObject) (updates : list Update) :
  promiseChain zip (Some Json.Null) updateTypes updates
  = inl (TypeError "Cannot read property 'softdevice' of null").
Proof. reflexivity. Qed.

(** X23. What [_fetchUpdates] does with each kind of manifest, when the
    archive is read and [manifest.json] is parsed.  When the parsed value
    has no [manifest], or a [manifest] that is [null], the promise is never
    settled: it is neither fulfilled nor rejected.  When the parsed value
    is [null], it is rejected with the [TypeError] of reading [manifest].
    A manifest that is an object gives its updates, and any other manifest
    gives no update. *)
Theorem fetchUpdates_manifest_kinds (p : Platform) (zipFilePath data text : string)
    (zip : ZipObject) (json : Json.t) :
  zipFilePath <> "" ->
  fs_readFile p zipFilePath = inr data ->
  JSZip_loadAsync p data = inr zip ->
  zip !! "manifest.json" = Some (inr text) ->
  JSON_parse p text = inr json ->
  _fetchUpdates p zipFilePath
  = match Json.get (Some json) "manifest" with
    | inl err => RejectedWith err
    | inr None | inr (Some Json.Null) => Pending
    | inr (Some (Json.Object properties)) =>
        Fulfilled (updatesOf zip properties)
    | inr (Some _) => Fulfilled []
    end.
Proof.
  intros Hpath Hread Hload Hfile Hparse.
  unfold _fetchUpdates, _getManifestAsync, promisify.
  rewrite (getManifest_calls p _ Hpath). cbn [thrown calls].
  unfold _loadZipAsync, _loadZip, promisify.
  rewrite Hread, Hload, Hfile, Hparse. cbn [thrown calls].
  destruct (Json.get (Some json) "manifest") as [err|[manifest|]]; [done| |done].
  destruct manifest; try done.
  unfold updateTypes. by rewrite promiseChain_object.
Qed.

Lemma fetchUpdates_manifest_kinds_witness :
  _fetchUpdates (platform archive (inr (Json.Object []))) "dfu.zip" = Pending.
Proof.
  apply (fetchUpdates_manifest_kinds
           (platform archive (inr (Json.Object []))) "dfu.zip" "archive"
           "manifest" archive (Json.Object [])
           ltac:(discriminate) eq_refl eq_refl eq_refl eq_refl).
Defined.





Lemma updatesOf_head (zip : ZipObject) (manifest : list (string * Json.t)) :
  head (updatesOf zip manifest)
  = (fun type => makeUpdate zip (Json.lookup type manifest))
    <$> firstSlot manifest.
Proof.
  unfold updatesOf, firstSlot, updateTypes. cbn [flat_map List.filter].
  destruct (Json.truthy (Json.lookup "softdevice" manifest)); [done|].
  destruct (Json.truthy (Json.lookup "bootloader" manifest)); [done|].
  destruct (Json.truthy (Json.lookup "softdevice_bootloader" manifest));
    [done|].
  by destruct (Json.truthy (Json.lookup "application" manifest)).
Qed.

(** X25. [performDFU] prints the init packet of the first update, and
    does nothing else: it calls no method of the adapter.  For a package
    that is read, with a manifest that is an object, the first update is
    that of the first of the slots softdevice, bootloader,
    softdevice_bootloader and application that the manifest has, whatever
    their order in the manifest.  When the archive holds the file that the
    slot names as [dat_file], its content is all that is printed; when
    reading that file fails, nothing is printed; when the archive does not
    hold it, or when the manifest has none of the four slots, a [TypeError]
    is printed.  No exception is thrown in any of these cases. *)
Theorem performDFU_prints_first_init_packet (p : Platform)
    (zipFilePath instanceId : string) (adapter : Adapter) (s : State)
    (zip : ZipObject) (manifest : list (string * Json.t)) :
  zipFilePath <> "" -> instanceId <> "" ->
  _loadZipAsync p zipFilePath = Fulfilled zip ->
  _getManifestAsync p (Some (Json.String zipFilePath))
  = Fulfilled (Some (Json.Object manifest)) ->
  let run :=
    performDFU p (Some zipFilePath) (Some adapter) (Some instanceId) s in
  snd run = None
  /\ (firstSlot manifest = None ->
      log (fst run)
      = log s
        ++ [ConsoleLog
              [PrintError
                 (TypeError "Cannot read property 'initPacket' of undefined")]])
  /\ (forall type name,
        firstSlot manifest = Some type ->
        Json.get (Json.lookup type manifest) "dat_file"
        = inr (Some (Json.String name)) ->
        log (fst run)
        = log s
          ++ match zip !! name with
             | Some (inr content) => [ConsoleLog [PrintString content]]
             | Some (inl _) => []
             | None =>
                 [ConsoleLog
                    [PrintError
                       (TypeError "Cannot read property 'async' of null")]]
             end).
Proof.
  intros Hpath Hid Hzip Hmanifest. cbv zeta. unfold performDFU.
  cbn [orString orObject _zipFilePath _adapter _instanceId missing].
  rewrite (eqb_empty _ Hpath), (eqb_empty _ Hid).
  cbn [_zipFilePath _adapter _instanceId missing default].
  rewrite (eqb_empty _ Hpath), (eqb_empty _ Hid).
  rewrite bool_decide_eq_false_2 by done. unfold id.
  rewrite (fetchUpdates_fulfilled p zipFilePath zip manifest Hzip Hmanifest).
  pose proof (updatesOf_head zip manifest) as Hhead.
  destruct (updatesOf zip manifest) as [|update updates].
  - destruct (firstSlot manifest) as [type|]; [done|]. by repeat split.
  - destruct (firstSlot manifest) as [type|]; [|done].
    cbn in Hhead. injection Hhead as ->.
    cbn [initPacket makeUpdate]. unfold accessor.
    split; [|split; [done|]].
    + destruct (Json.get (Json.lookup type manifest) "dat_file")
        as [err|[value|]]; try done.
      destruct value as [| | |name| |]; try done.
      by destruct (zip !! name) as [[]|].
    + intros type' name [= <-] Hget. rewrite Hget.
      destruct (zip !! name) as [[]|]; cbn; by rewrite ?app_nil_r.
Qed.

Lemma performDFU_prints_first_init_packet_witness :
  let p :=
    platform fullArchive
      (inr (Json.Object [("manifest", Json.Object fullManifest)])) in
  log (fst (performDFU p (Some "dfu.zip") (Some (adapterOf device))
              (Some "device") (constructor None)))
  = [ConsoleLog [PrintString "init packet of the softdevice"]].
Proof.
  cbv zeta.
  destruct (performDFU_prints_first_init_packet
              (platform fullArchive
                 (inr (Json.Object [("manifest", Json.Object fullManifest)])))
              "dfu.zip" "device" (adapterOf device) (constructor None)
              fullArchive fullManifest
              ltac:(discriminate) ltac:(discriminate) eq_refl eq_refl)
    as (_ & _ & Hprints).
  exact (Hprints "softdevice" "sd.dat" eq_refl eq_refl).
Defined.

End MorePackage.

(** ** Conversions to native integers *)

Section Conversions.
Import ConvUtil.

Lemma truncate_integer (z : Z) : truncate (inject_Z z) = z.
Proof.
  unfold truncate. destruct (Qle_bool 0 (inject_Z z)).
  - apply Qfloor_Z.
  - apply Qceiling_Z.
Qed.

Lemma mod_mod_pow2 (z bits : Z) :
  0 < bits <= 32 -> (z mod 2 ^ 32) mod 2 ^ bits = z mod 2 ^ bits.
Proof.
  intros Hbits. apply Z.mod_mod_divide.
  exists (2 ^ (32 - bits)). rewrite <- Z.pow_add_r by lia. f_equal. lia.
Qed.

(** X26. [getNativeUnsigned] refuses what is not a number and nothing
    else: a number that does not fit the native type is not refused but
    cut to its low bits.  For every value it throws the string "number" if
    the value is no number, and otherwise returns a value of the native
    type.  An integer is returned modulo [2^bits] when the type has at most
    32 bits, and so as it is exactly when it is in the range of the type;
    [NaN] and the infinities give 0. *)
Theorem getNativeUnsigned_truncates (bits : Z) :
  0 < bits <= 32 ->
  (forall js,
     match getNativeUnsigned bits js with
     | inr value => IsNumber js = true /\ 0 <= value < 2 ^ bits
     | inl thrown => IsNumber js = false /\ thrown = "number"
     end)
  /\ (forall z,
        getNativeUnsigned bits (JsNumber (Finite (inject_Z z)))
        = inr (z mod 2 ^ bits))
  /\ (forall z,
        getNativeUnsigned bits (JsNumber (Finite (inject_Z z))) = inr z
        <-> 0 <= z < 2 ^ bits)
  /\ getNativeUnsigned bits (JsNumber NaN) = inr 0
  /\ (forall negative,
        getNativeUnsigned bits (JsNumber (Infinity negative)) = inr 0).
Proof.
  intros Hbits.
  assert (0 < 2 ^ bits) as Hpow by (apply Z.pow_pos_nonneg; lia).
  assert (forall z,
            getNativeUnsigned bits (JsNumber (Finite (inject_Z z)))
            = inr (z mod 2 ^ bits)) as Hinteger.
  { intros z. unfold getNativeUnsigned, static_cast, Uint32Value.
    by rewrite truncate_integer, mod_mod_pow2. }
  split; [|split; [exact Hinteger|split; [|split]]].
  - intros [n| |]; cbn; [|done..]. split; [done|].
    unfold static_cast. apply Z.mod_pos_bound. lia.
  - intros z. rewrite Hinteger. split.
    + intros [= Hz]. rewrite <- Hz. apply Z.mod_pos_bound. lia.
    + intros Hz. by rewrite Z.mod_small.
  - unfold getNativeUnsigned, static_cast, Uint32Value.
    by rewrite Z.mod_0_l by lia.
  - intros negative. unfold getNativeUnsigned, static_cast, Uint32Value.
    by rewrite Z.mod_0_l by lia.
Qed.

Lemma getNativeUnsigned_truncates_witness :
  getNativeUnsigned 8 (JsNumber (Finite (inject_Z 300))) = inr 44.
Proof.
  apply (proj1 (proj2 (getNativeUnsigned_truncates 8 ltac:(lia))) 300).
Defined.

End Conversions.
